(** * Word-velocity pipeline of [app.py]

    A shallow embedding of the two request handlers of [app.py], [collect]
    and [dashboard], and of the library behaviour they rely on:
    - in the handlers, Python [str] values are [string]s whose
      characters are read as the 256 code points of Latin-1; the filter
      of line 42 is also modelled over all of Unicode ([UStr]), where a
      string is a list of code points and the character database is a
      parameter, and the two models give the same words on Latin-1
      titles;
    - [collections.Counter] is an association list in first-seen order
      (a Python dict iterates in insertion order);
    - parsed JSON is the inductive type [json];
    - the PostgreSQL session opened through psycopg2 is an explicit
      state with committed tables and the pending rows of the open
      transaction; the order in which the store returns rows that the
      query does not order is part of the environment of a request;
    - Python exceptions are the [Raise] outcome of a state-and-error monad.

    TextBlob's word tokenizer is a library outside the repository: it is a
    parameter of the development. *)

From Stdlib Require Import List String Ascii ZArith NArith Bool Lia.
From Stdlib Require Import Sorted Permutation.
Import ListNotations.

Local Open Scope string_scope.
Local Open Scope Z_scope.

(** ** Python strings *)

Module PyStr.

Definition code (c : ascii) : N := N_of_ascii c.

Definition between (lo hi : N) (n : N) : bool :=
  (N.leb lo n && N.leb n hi)%bool.

(** Uppercase letters of Latin-1: A-Z, and the accented capitals
    U+00C0..U+00DE without the multiplication sign U+00D7. *)
Definition is_upper_char (c : ascii) : bool :=
  let n := code c in
  (between 65 90 n || between 192 214 n || between 216 222 n)%bool.

(** Lowercase letters of Latin-1: a-z, the ordinal indicators U+00AA
    and U+00BA, the micro sign U+00B5, and U+00DF..U+00FF without the
    division sign U+00F7. *)
Definition is_lower_char (c : ascii) : bool :=
  let n := code c in
  (between 97 122 n || N.eqb n 170 || N.eqb n 181 || N.eqb n 186
   || between 223 246 n || between 248 255 n)%bool.

Definition is_alpha_char (c : ascii) : bool :=
  (is_upper_char c || is_lower_char c)%bool.

(** [str.lower] on one character: every uppercase letter of Latin-1
    sits 32 code points below its lowercase form. *)
Definition lower_char (c : ascii) : ascii :=
  if is_upper_char c then ascii_of_N (code c + 32) else c.

Fixpoint lower (s : string) : string :=
  match s with
  | EmptyString => EmptyString
  | String c s' => String (lower_char c) (lower s')
  end.

Fixpoint all_chars (p : ascii -> bool) (s : string) : bool :=
  match s with
  | EmptyString => true
  | String c s' => (p c && all_chars p s')%bool
  end.

(** [str.isalpha]: at least one character and all of them alphabetic. *)
Definition isalpha (s : string) : bool :=
  match s with
  | EmptyString => false
  | _ => all_chars is_alpha_char s
  end.

(** [len] *)
Definition len (s : string) : Z := Z.of_nat (String.length s).

(** [sep.join(parts)] *)
Fixpoint join (sep : string) (parts : list string) : string :=
  match parts with
  | [] => EmptyString
  | [p] => p
  | p :: rest => p ++ sep ++ join sep rest
  end.

End PyStr.

(** ** Configuration (lines 12-19) *)

Definition STOPWORDS : list string :=
  ["the"; "to"; "of"; "and"; "a"; "in"; "is"; "for"; "on"; "with"; "it";
   "this"; "that"; "are"; "be"; "at"; "as"; "from"; "or"; "by"; "an"; "we";
   "show"; "hn"; "ask"; "new"; "how"; "why"; "what"; "who"; "your"; "my";
   "i"; "you"].

(** [w in STOPWORDS] *)
Definition in_stopwords (w : string) : bool :=
  existsb (String.eqb w) STOPWORDS.

(** ** Tokenizer and filter (lines 38-42) *)

Section Tokenizer.

(** [TextBlob(text).words] *)
Variable tokenize : string -> list string.

(** The condition of the list comprehension on line 42. *)
Definition keep (w : string) : bool :=
  (PyStr.isalpha w && (2 <? PyStr.len w) && negb (in_stopwords w))%bool.

(** Lines 38-42, from the list of titles to the list [words]. *)
Definition filtered_words (titles : list string) : list string :=
  let all_text := PyStr.join " " titles in
  filter keep (tokenize (PyStr.lower all_text)).

End Tokenizer.

(** A tokenizer that splits on spaces, for the sample runs: on the
    titles of the samples it leaves the filter the same words as
    TextBlob's does. *)
Fixpoint split_spaces_aux (cur : string) (s : string) : list string :=
  match s with
  | EmptyString => match cur with EmptyString => [] | _ => [cur] end
  | String c s' =>
      if Ascii.eqb c " "%char
      then match cur with
           | EmptyString => split_spaces_aux EmptyString s'
           | _ => cur :: split_spaces_aux EmptyString s'
           end
      else split_spaces_aux (cur ++ String c EmptyString) s'
  end.

Definition split_spaces (s : string) : list string :=
  split_spaces_aux EmptyString s.

(** ** [collections.Counter] (lines 43, 58, 69) *)

Module Counter.

(** A counter is the list of its (word, count) items in insertion
    order. *)
Definition t := list (string * Z).

(** [c[w] += n] *)
Fixpoint add (w : string) (n : Z) (c : t) : t :=
  match c with
  | [] => [(w, n)]
  | (k, m) :: c' =>
      if String.eqb k w then (k, m + n) :: c' else (k, m) :: add w n c'
  end.

(** [Counter(words)] *)
Definition of_list (words : list string) : t :=
  fold_left (fun c w => add w 1 c) words [].

(** Insertion of an item in a list sorted by decreasing count; the item
    goes in front of the items with the same count. *)
Fixpoint insert_desc (x : string * Z) (l : t) : t :=
  match l with
  | [] => [x]
  | y :: l' => if snd y <=? snd x then x :: y :: l' else y :: insert_desc x l'
  end.

(** [sorted(items, key=itemgetter(1), reverse=True)]: a stable sort, so
    items with equal counts keep their insertion order. *)
Definition sort_desc (l : t) : t := fold_right insert_desc [] l.

(** [c.most_common(n)] *)
Definition most_common (n : nat) (c : t) : t := firstn n (sort_desc c).

(** The counts of a list decrease (weakly) from left to right. *)
Definition ge_count (a b : string * Z) : Prop := snd b <= snd a.
Definition sorted_desc (l : t) : Prop := StronglySorted ge_count l.

(** The number of distinct words of a list. *)
Definition distinct (words : list string) : nat :=
  List.length (nodup string_dec words).

(** The keys of a counter, in insertion order. *)
Definition keys (c : t) : list string := map fst c.

(** [c[w]], which is 0 for a missing key. *)
Fixpoint count_of (w : string) (c : t) : Z :=
  match c with
  | [] => 0
  | (k, m) :: c' => if String.eqb k w then m else count_of w c'
  end.

(** The loop [for x in xs: c[kf(x)] += vf(x)]. *)
Definition loop {X : Type} (kf : X -> string) (vf : X -> Z)
    (xs : list X) (c : t) : t :=
  fold_left (fun acc x => add (kf x) (vf x) acc) xs c.

End Counter.

(** ** Parsed JSON and Python exceptions *)

#[local] Set Warnings "-register-all".

Inductive json : Type :=
| JNull
| JBool (b : bool)
| JNum (n : Z)
| JStr (s : string)
| JArr (items : list json)
| JObj (fields : list (string * json)).

Inductive exn : Type :=
| ConnectionError (msg : string)    (* raised by requests.get *)
| JSONDecodeError (msg : string)    (* raised by response.json() *)
| AttributeError (msg : string)
| TypeError (msg : string)
| OperationalError (msg : string)   (* psycopg2: the server failed the call *)
| SyntaxError (msg : string).       (* psycopg2: the statement does not parse *)

(** [str(e)] *)
Definition str (e : exn) : string :=
  match e with
  | ConnectionError m | JSONDecodeError m | AttributeError m
  | TypeError m | OperationalError m | SyntaxError m => m
  end.

Inductive result (A : Type) : Type :=
| Ok (a : A)
| Raise (e : exn).
Arguments Ok {A} a.
Arguments Raise {A} e.

Module Py.

Fixpoint lookup (key : string) (fields : list (string * json)) : option json :=
  match fields with
  | [] => None
  | (k, v) :: rest => if String.eqb k key then Some v else lookup key rest
  end.

(** [d.get(key, default)]; only a dict has the method. *)
Definition get (d : json) (key : string) (default : json) : result json :=
  match d with
  | JObj fields =>
      Ok (match lookup key fields with Some v => v | None => default end)
  | _ => Raise (AttributeError "object has no attribute 'get'")
  end.

(** The items a [for] loop visits: the elements of a list, the keys of
    a dict, the characters of a string. *)
Definition iter (v : json) : result (list json) :=
  match v with
  | JArr items => Ok items
  | JObj fields => Ok (map (fun kv => JStr (fst kv)) fields)
  | JStr s =>
      Ok (map (fun c => JStr (String c EmptyString)) (list_ascii_of_string s))
  | _ => Raise (TypeError "object is not iterable")
  end.

(** [v[:5]] *)
Definition slice5 (v : json) : result json :=
  match v with
  | JArr items => Ok (JArr (firstn 5 items))
  | JStr s => Ok (JStr (substring 0 5 s))
  | _ => Raise (TypeError "unhashable type: 'slice'")
  end.

(** [[hit.get('title', '') for hit in items]] *)
Fixpoint titles_of (items : list json) : result (list json) :=
  match items with
  | [] => Ok []
  | hit :: rest =>
      match get hit "title" (JStr EmptyString) with
      | Raise e => Raise e
      | Ok t =>
          match titles_of rest with
          | Raise e => Raise e
          | Ok ts => Ok (t :: ts)
          end
      end
  end.

(** The check [" ".join] makes on its argument: every item is a [str]. *)
Fixpoint all_str (vs : list json) : result (list string) :=
  match vs with
  | [] => Ok []
  | JStr s :: rest =>
      match all_str rest with
      | Raise e => Raise e
      | Ok ss => Ok (s :: ss)
      end
  | _ :: _ => Raise (TypeError "sequence item: expected str instance")
  end.

End Py.

(** ** The store

    Modelled from the spec: the declarations of the two tables are not in
    the repository.  [snapshots(id, source, raw_data, observed_at)] and
    [word_velocity(word, count, snapshot_id, observed_at)]; [id] is
    assigned on creation and unique, [observed_at] defaults to the write
    time.  Identifiers come from a sequence, which a rollback does not
    rewind. *)

Record snapshot_row : Type := {
  snap_id : Z;
  snap_source : string;
  snap_raw_data : json;
  snap_observed_at : Z
}.

Record word_row : Type := {
  wv_word : string;
  wv_count : Z;
  wv_snapshot_id : Z;
  wv_observed_at : Z
}.

Record tables : Type := {
  snapshots : list snapshot_row;
  word_velocity : list word_row
}.

Definition no_rows : tables := {| snapshots := []; word_velocity := [] |}.

(** [committed] is what every session sees; [pending] holds the rows the
    handler's own connection has written in its open transaction
    (psycopg2 opens one at the first [execute] and keeps it open until
    [commit]). *)
Record database : Type := {
  committed : tables;
  pending : tables;
  id_seq : Z
}.

(** Timestamps are microseconds. *)
Definition hours24 : Z := 24 * 3600 * 1000000.

(** The calls the handlers make on the store. *)
Inductive db_op : Type :=
| OpConnect | OpInsertSnapshot | OpInsertWords | OpCommit | OpClose | OpSelect.

(** What [requests.get] does: it raises, or it returns a response with a
    status code and a body; [None] is a body that is not JSON. *)
Inductive fetch_outcome : Type :=
| NetworkError (msg : string)
| Response (status : Z) (body : option json).

(** The world a request runs in: the outcome of the fetch, the calls the
    store fails (with the message of the error), the time of the
    store's clock, and the store's choice among rows it is free to
    return in any order: of two groups with the same total, the one
    whose word has the smaller rank comes first. *)
Record env : Type := {
  fetch : fetch_outcome;
  db_fault : db_op -> option string;
  clock : Z;
  tie_rank : string -> Z
}.

(** ** Handlers as state-and-error computations *)

Definition M (A : Type) : Type := database -> result A * database.

Definition ret {A} (a : A) : M A := fun db => (Ok a, db).

Definition raise {A} (e : exn) : M A := fun db => (Raise e, db).

Definition bind {A B} (c : M A) (k : A -> M B) : M B :=
  fun db =>
    match c db with
    | (Ok a, db') => k a db'
    | (Raise e, db') => (Raise e, db')
    end.

(** A computation without effect on the store. *)
Definition lift {A} (r : result A) : M A := fun db => (r, db).

(** [try: body except Exception as e: handler] *)
Definition try_except {A} (body : M A) (handler : exn -> M A) : M A :=
  fun db =>
    match body db with
    | (Ok a, db') => (Ok a, db')
    | (Raise e, db') => handler e db'
    end.

Declare Scope py_scope.
Delimit Scope py_scope with py.
Notation "x <- c ;; k" := (bind c (fun x => k))
  (at level 61, c at next level, right associativity) : py_scope.
Notation "c ;;; k" := (bind c (fun _ => k))
  (at level 61, right associativity) : py_scope.

Local Open Scope py_scope.

(** ** The store's side of the calls *)

Section Store.

Variable e : env.

(** A call the store fails raises [OperationalError] and leaves the
    state as it is. *)
Definition guarded {A} (op : db_op) (c : M A) : M A :=
  match db_fault e op with
  | Some msg => raise (OperationalError msg)
  | None => c
  end.

(** [get_db_connection()] (lines 21-23) followed by [conn.cursor()]: a
    new session, with no row written yet. *)
Definition get_db_connection : M unit :=
  guarded OpConnect
    (fun db => (Ok tt, {| committed := committed db;
                          pending := no_rows;
                          id_seq := id_seq db |})).

(** [INSERT INTO snapshots (source, raw_data) VALUES (%s, %s) RETURNING id]
    followed by [cur.fetchone()[0]] (lines 50-54). *)
Definition insert_snapshot (source : string) (raw_data : json) : M Z :=
  guarded OpInsertSnapshot
    (fun db =>
       let id := id_seq db in
       let row := {| snap_id := id; snap_source := source;
                     snap_raw_data := raw_data;
                     snap_observed_at := clock e |} in
       (Ok id, {| committed := committed db;
                  pending := {| snapshots := snapshots (pending db) ++ [row];
                                word_velocity := word_velocity (pending db) |};
                  id_seq := id + 1 |})).

Definition word_row_of (arg : string * Z * Z) : word_row :=
  let '(word, count, snapshot_id) := arg in
  {| wv_word := word; wv_count := count; wv_snapshot_id := snapshot_id;
     wv_observed_at := clock e |}.

(** [INSERT INTO word_velocity (word, count, snapshot_id) VALUES] followed
    by the comma-separated tuples of [args_list] (lines 62-63).  With no
    tuple the statement ends after [VALUES], which PostgreSQL rejects as
    a syntax error. *)
Definition insert_word_velocity (args_list : list (string * Z * Z)) : M unit :=
  guarded OpInsertWords
    (match args_list with
     | [] => raise (SyntaxError "syntax error at end of input")
     | _ =>
         fun db =>
           (Ok tt, {| committed := committed db;
                      pending := {| snapshots := snapshots (pending db);
                                    word_velocity := word_velocity (pending db)
                                                     ++ map word_row_of args_list |};
                      id_seq := id_seq db |})
     end).

(** [conn.commit()] (line 65): the rows of the open transaction become
    visible, all at once. *)
Definition commit : M unit :=
  guarded OpCommit
    (fun db =>
       (Ok tt, {| committed := {| snapshots := snapshots (committed db)
                                               ++ snapshots (pending db);
                                  word_velocity := word_velocity (committed db)
                                                   ++ word_velocity (pending db) |};
                  pending := no_rows;
                  id_seq := id_seq db |})).

(** [cur.close(); conn.close()] (lines 66-67, 93-94): rows still pending
    are discarded. *)
Definition close : M unit :=
  guarded OpClose
    (fun db => (Ok tt, {| committed := committed db;
                          pending := no_rows;
                          id_seq := id_seq db |})).

(** The rows the session sees: the committed ones and its own. *)
Definition session_rows (db : database) : list word_row :=
  word_velocity (committed db) ++ word_velocity (pending db).

(** [WHERE observed_at > NOW() - INTERVAL '24 hours'] (line 86) *)
Definition in_window (r : word_row) : bool :=
  clock e - hours24 <? wv_observed_at r.

(** [SELECT word, SUM(count) as total ... GROUP BY word] (lines 84-87) *)
Definition group_sum (rows : list word_row) : Counter.t :=
  fold_left (fun acc r => Counter.add (wv_word r) (wv_count r) acc) rows [].

(** Insertion of a group in a list ordered by increasing rank of the
    word. *)
Fixpoint insert_rank (x : string * Z) (l : Counter.t) : Counter.t :=
  match l with
  | [] => [x]
  | y :: l' =>
      if tie_rank e (fst x) <=? tie_rank e (fst y)
      then x :: y :: l'
      else y :: insert_rank x l'
  end.

(** The groups in the order the store happens to produce them. *)
Definition store_order (groups : Counter.t) : Counter.t :=
  fold_right insert_rank [] groups.

(** The query of lines 83-90 on a list of rows.  [ORDER BY total DESC]
    says nothing about groups with equal totals, and [LIMIT 10] keeps
    whichever of them come first: their order is the store's, given by
    [tie_rank]. *)
Definition trend_query (rows : list word_row) : list (string * Z) :=
  firstn 10
    (Counter.sort_desc (store_order (group_sum (filter in_window rows)))).

(** [cur.execute(...)] and [cur.fetchall()] (lines 83-91) *)
Definition select_trends : M (list (string * Z)) :=
  guarded OpSelect (fun db => (Ok (trend_query (session_rows db)), db)).

End Store.

(** ** The handlers *)

Inductive response_body : Type :=
| Success (snapshot_id : Z) (top_words : list (string * Z))
| Error (message : string).

(** What a handler returns to Flask: a body and a status code. *)
Record http_response : Type := {
  body : response_body;
  status_code : Z
}.

Section Handlers.

Variable tokenize : string -> list string.
Variable e : env.

(** [requests.get(HN_API_URL)] and [response.json()] (lines 33-34); the
    status code of the response is not looked at. *)
Definition fetch_json : result json :=
  match fetch e with
  | NetworkError msg => Raise (ConnectionError msg)
  | Response _ None => Raise (JSONDecodeError "Expecting value")
  | Response _ (Some data) => Ok data
  end.

(** Lines 33-43: from the fetch to [hits] and [word_counts]. *)
Definition extract_words : result (json * Counter.t) :=
  match fetch_json with
  | Raise x => Raise x
  | Ok data =>
      match Py.get data "hits" (JArr []) with
      | Raise x => Raise x
      | Ok hits =>
          match Py.iter hits with
          | Raise x => Raise x
          | Ok items =>
              match Py.titles_of items with
              | Raise x => Raise x
              | Ok vs =>
                  match Py.all_str vs with
                  | Raise x => Raise x
                  | Ok titles =>
                      let words := filtered_words tokenize titles in
                      Ok (hits, Counter.of_list words)
                  end
              end
          end
      end
  end.

(** Lines 46-67: the snapshot, its word counts, the commit. *)
Definition store_snapshot (hits : json) (word_counts : Counter.t) : M Z :=
  get_db_connection e ;;;
  raw <- lift (Py.slice5 hits) ;;
  snapshot_id <- insert_snapshot e "HackerNews" raw ;;
  let args_list :=
    map (fun wc => (fst wc, snd wc, snapshot_id))
        (Counter.most_common 50 word_counts) in
  insert_word_velocity e args_list ;;;
  commit e ;;;
  close e ;;;
  ret snapshot_id.

(** The body of the [try] block (lines 32-69). *)
Definition collect_try : M http_response :=
  hw <- lift extract_words ;;
  let '(hits, word_counts) := hw in
  snapshot_id <- store_snapshot hits word_counts ;;
  ret {| body := Success snapshot_id (Counter.most_common 5 word_counts);
         status_code := 200 |}.

(** [collect] (lines 26-72) *)
Definition collect : M http_response :=
  try_except collect_try
    (fun x => ret {| body := Error (str x); status_code := 500 |}).

(** [dashboard] (lines 75-142), up to the two lists handed to the
    template. *)
Definition dashboard : M (list string * list Z) :=
  get_db_connection e ;;;
  top_words <- select_trends e ;;
  close e ;;;
  let labels := map fst top_words in
  let data := map snd top_words in
  ret (labels, data).

End Handlers.

(** ** The trend query in the words of the specification *)

Module Spec.

(** The observed timestamp falls within [[now - windowDuration, now)]. *)
Definition in_window (now windowDuration : Z) (r : word_row) : bool :=
  ((now - windowDuration <=? wv_observed_at r) && (wv_observed_at r <? now))%bool.

(** [topWords(windowDuration, limit)]: the rows of the window, grouped by
    word, summed, sorted descending, truncated to [limit]. *)
Definition topWords (now windowDuration : Z) (limit : nat)
    (rows : list word_row) : list (string * Z) :=
  firstn limit
    (Counter.sort_desc
       (fold_left (fun acc r => Counter.add (wv_word r) (wv_count r) acc)
                  (filter (in_window now windowDuration) rows) [])).

End Spec.

(** ** Observations on a run *)

(** What the other sessions see of a state. *)
Definition visible (db : database) : tables := committed db.

(** The total of a word over the rows of a list. *)
Definition total_of (w : string) (rows : list word_row) : Z :=
  fold_right Z.add 0
    (map wv_count (filter (fun r => String.eqb (wv_word r) w) rows)).

(** The (word, count) pair a row stores. *)
Definition item_of (r : word_row) : string * Z := (wv_word r, wv_count r).

(** An environment in which the store fails no call. *)
Definition no_fault : db_op -> option string := fun _ => None.

Definition empty_db : database :=
  {| committed := no_rows; pending := no_rows; id_seq := 1 |}.

(** The items of a JSON sequence; no item for a value a loop rejects. *)
Definition items_of (v : json) : list json :=
  match Py.iter v with
  | Ok items => items
  | Raise _ => []
  end.

(** The row of [snapshots] a run writes. *)
Definition snapshot_of (e : env) (id : Z) (raw : json) : snapshot_row :=
  {| snap_id := id; snap_source := "HackerNews"; snap_raw_data := raw;
     snap_observed_at := clock e |}.

(** The rows of [word_velocity] a run writes. *)
Definition words_of (e : env) (id : Z) (word_counts : Counter.t)
    : list word_row :=
  map (word_row_of e)
      (map (fun wc => (fst wc, snd wc, id))
           (Counter.most_common 50 word_counts)).

(** The store fails none of the calls up to the commit. *)
Definition store_accepts (e : env) : Prop :=
  db_fault e OpConnect = None
  /\ db_fault e OpInsertSnapshot = None
  /\ db_fault e OpInsertWords = None
  /\ db_fault e OpCommit = None.

(** [db'] shows the rows of a run that started in [db], on top of those
    of [db]. *)
Definition written (tokenize : string -> list string) (e : env)
    (db db' : database) (hits raw : json) (word_counts : Counter.t) : Prop :=
  extract_words tokenize e = Ok (hits, word_counts)
  /\ store_accepts e
  /\ Py.slice5 hits = Ok raw
  /\ Counter.most_common 50 word_counts <> []
  /\ snapshots (visible db')
     = (snapshots (visible db) ++ [snapshot_of e (id_seq db) raw])%list
  /\ word_velocity (visible db')
     = (word_velocity (visible db) ++ words_of e (id_seq db) word_counts)%list.

(** ** Sample inputs *)

Definition hit_titled (title : string) : json :=
  JObj [("title", JStr title); ("points", JNum 1)].

(** A front page with two posts. *)
Definition front_page : json :=
  JObj [("hits", JArr [hit_titled "Show HN: new database engine";
                       hit_titled "Ask HN: why is Rust so hard in Rust"])].

(** A front page without posts. *)
Definition front_page_empty : json := JObj [("hits", JArr [])].

(** The store fails the insert of the word counts. *)
Definition fault_on_words (op : db_op) : option string :=
  match op with
  | OpInsertWords => Some "server closed the connection unexpectedly"
  | _ => None
  end.

Definition env_ok : env :=
  {| fetch := Response 200 (Some front_page);
     db_fault := no_fault; clock := 5 * hours24;
     tie_rank := fun _ => 0 |}.

Definition env_words_fail : env :=
  {| fetch := Response 200 (Some front_page);
     db_fault := fault_on_words; clock := 5 * hours24;
     tie_rank := fun _ => 0 |}.

Definition env_status_500 : env :=
  {| fetch := Response 500 (Some front_page);
     db_fault := no_fault; clock := 5 * hours24;
     tie_rank := fun _ => 0 |}.

Definition env_not_json : env :=
  {| fetch := Response 500 None;
     db_fault := no_fault; clock := 5 * hours24;
     tie_rank := fun _ => 0 |}.

Definition env_no_hits : env :=
  {| fetch := Response 200 (Some front_page_empty);
     db_fault := no_fault; clock := 5 * hours24;
     tie_rank := fun _ => 0 |}.

(** A row observed exactly 24 hours before the clock of [env_ok]. *)
Definition row_at_boundary : word_row :=
  {| wv_word := "rust"; wv_count := 3; wv_snapshot_id := 1;
     wv_observed_at := 4 * hours24 |}.

(** A store whose only row is older than the window of [env_ok]. *)
Definition db_old : database :=
  {| committed := {| snapshots := []; word_velocity := [row_at_boundary] |};
     pending := no_rows; id_seq := 2 |}.

(** ** Python strings over all of Unicode

    A Python [str] is a sequence of code points.  The predicates and the
    case mapping of [str] are lookups in the Unicode character database,
    which is a parameter here; [lower] and [isalpha] follow CPython's
    [str.lower] and [str.isalpha].  The strings [PyStr] reads as Latin-1
    text are the strings of code points below 256. *)

Module UStr.

Definition t : Type := list N.

(** The properties of a code point the two methods look up. *)
Record ucd : Type := {
  uc_alpha : N -> bool;           (* a letter: what [isalpha] tests *)
  uc_upper : N -> bool;           (* what [isupper] tests *)
  uc_lowercase : N -> bool;       (* what [islower] tests *)
  uc_cased : N -> bool;
  uc_case_ignorable : N -> bool;
  uc_tolower : N -> list N        (* the full lowercase mapping *)
}.

Definition capital_sigma : N := 931.   (* U+03A3 *)
Definition final_sigma : N := 962.     (* U+03C2 *)
Definition small_sigma : N := 963.     (* U+03C3 *)

(** The code points of a string of Latin-1 characters. *)
Definition of_string (s : string) : t :=
  map N_of_ascii (list_ascii_of_string s).

Fixpoint eqb (a b : t) : bool :=
  match a, b with
  | [], [] => true
  | x :: a', y :: b' => (N.eqb x y && eqb a' b')%bool
  | _, _ => false
  end.

(** [len] *)
Definition len (s : t) : Z := Z.of_nat (List.length s).

(** [sep.join(parts)] *)
Fixpoint join (sep : t) (parts : list t) : t :=
  match parts with
  | [] => []
  | [p] => p
  | p :: rest => (p ++ sep ++ join sep rest)%list
  end.

(** [w in STOPWORDS] *)
Definition in_stopwords (w : t) : bool :=
  existsb (eqb w) (map of_string STOPWORDS).

Section Database.

Variable u : ucd.

Fixpoint skip_ignorable (s : t) : t :=
  match s with
  | [] => []
  | c :: s' => if uc_case_ignorable u c then skip_ignorable s' else s
  end.

(** The lowercase form of a capital sigma: the final form when a cased
    letter comes before it and none comes after it, characters that
    case mapping ignores being skipped on both sides.  [before] holds
    the characters in front of the sigma, the nearest first. *)
Definition lower_sigma (before after : t) : N :=
  let cased_before :=
    match skip_ignorable before with
    | c :: _ => uc_cased u c
    | [] => false
    end in
  let cased_after :=
    match skip_ignorable after with
    | c :: _ => uc_cased u c
    | [] => false
    end in
  if (cased_before && negb cased_after)%bool then final_sigma
  else small_sigma.

Fixpoint lower_from (before : t) (s : t) : t :=
  match s with
  | [] => []
  | c :: s' =>
      ((if N.eqb c capital_sigma then [lower_sigma before s']
        else uc_tolower u c)
       ++ lower_from (c :: before) s')%list
  end.

(** [str.lower] *)
Definition lower (s : t) : t := lower_from [] s.

(** [str.isalpha] *)
Definition isalpha (s : t) : bool :=
  match s with
  | [] => false
  | _ => forallb (uc_alpha u) s
  end.

(** A character [lower] returns as it is. *)
Definition fixed_by_lower (c : N) : Prop :=
  c <> capital_sigma /\ uc_tolower u c = [c].

(** The lowercase mapping maps to characters it leaves alone, as the one
    of Unicode does. *)
Definition lower_idempotent : Prop :=
  (forall c d, c <> capital_sigma -> In d (uc_tolower u c) ->
               fixed_by_lower d)
  /\ fixed_by_lower small_sigma
  /\ fixed_by_lower final_sigma.

(** The database says of the code points below 256 what [PyStr] says of
    the Latin-1 characters. *)
Definition agrees_on_latin1 : Prop :=
  forall a : ascii,
    uc_alpha u (N_of_ascii a) = PyStr.is_alpha_char a
    /\ uc_tolower u (N_of_ascii a) = [N_of_ascii (PyStr.lower_char a)].

Section Tokenizer.

(** [TextBlob(text).words] *)
Variable tokenize : t -> list t.

(** The condition of the list comprehension on line 42. *)
Definition keep (w : t) : bool :=
  (isalpha w && (2 <? len w) && negb (in_stopwords w))%bool.

(** Lines 38-42, from the list of titles to the list [words]. *)
Definition filtered_words (titles : list t) : list t :=
  let all_text := join (of_string " ") titles in
  filter keep (tokenize (lower all_text)).

End Tokenizer.

End Database.

(** An excerpt of the Unicode character database: the code points below
    256, the three sigmas, the mathematical bold capitals U+1D400 to
    U+1D419, which are uppercase letters without a lowercase form, and
    the ideographs U+4E00 to U+9FA5, which are letters without case.
    The other code points are not described: they count as characters
    without case that are not letters. *)
Definition in_math_bold_capitals (c : N) : bool := PyStr.between 119808 119833 c.

Definition in_ideographs (c : N) : bool := PyStr.between 19968 40869 c.

Definition latin1_upper (c : N) : bool :=
  (PyStr.between 65 90 c || PyStr.between 192 214 c
   || PyStr.between 216 222 c)%bool.

Definition latin1_lower (c : N) : bool :=
  (PyStr.between 97 122 c || N.eqb c 170 || N.eqb c 181 || N.eqb c 186
   || PyStr.between 223 246 c || PyStr.between 248 255 c)%bool.

Definition excerpt : ucd :=
  {| uc_alpha := fun c =>
       (latin1_upper c || latin1_lower c
        || N.eqb c capital_sigma || N.eqb c final_sigma
        || N.eqb c small_sigma
        || in_math_bold_capitals c || in_ideographs c)%bool;
     uc_upper := fun c =>
       (latin1_upper c || N.eqb c capital_sigma
        || in_math_bold_capitals c)%bool;
     uc_lowercase := fun c =>
       (latin1_lower c || N.eqb c final_sigma || N.eqb c small_sigma)%bool;
     uc_cased := fun c =>
       (latin1_upper c || latin1_lower c
        || N.eqb c capital_sigma || N.eqb c final_sigma
        || N.eqb c small_sigma || in_math_bold_capitals c)%bool;
     uc_case_ignorable := fun c =>
       existsb (N.eqb c) [39; 46; 58; 94; 96; 168; 173; 175; 180; 183; 184]%N;
     uc_tolower := fun c =>
       if latin1_upper c then [(c + 32)%N]
       else if N.eqb c capital_sigma then [small_sigma]
       else [c] |}.

(** A tokenizer that splits on spaces. *)
Fixpoint split_spaces_aux (cur : t) (s : t) : list t :=
  match s with
  | [] => match cur with [] => [] | _ => [cur] end
  | c :: s' =>
      if N.eqb c 32
      then match cur with
           | [] => split_spaces_aux [] s'
           | _ => cur :: split_spaces_aux [] s'
           end
      else split_spaces_aux (cur ++ [c])%list s'
  end.

Definition split_spaces (s : t) : list t := split_spaces_aux [] s.

(** The word made of the letters U+1D400 to U+1D403. *)
Definition bold_abcd : t := [119808; 119809; 119810; 119811]%N.

(** The word made of the ideographs U+6570, U+636E and U+5E93. *)
Definition ideographs_3 : t := [25968; 25454; 24211]%N.

End UStr.

(** ** Orders of equal totals *)

(** The position of a word in a list of words. *)
Fixpoint index_of (w : string) (l : list string) : Z :=
  match l with
  | [] => 0
  | k :: l' => if String.eqb k w then 0 else 1 + index_of w l'
  end.

(** The rank that puts the words of an answer in the answer's order. *)
Definition rank_of_answer (answer : Counter.t) (w : string) : Z :=
  index_of w (map fst answer).

(** The ranks of a list increase (weakly) from left to right. *)
Definition le_rank (rank : string -> Z) (a b : string * Z) : Prop :=
  rank (fst a) <= rank (fst b).

(** ** Invariants of the store *)

(** The word-count rows of a snapshot. *)
Definition rows_of (id : Z) (rows : list word_row) : list word_row :=
  filter (fun r => wv_snapshot_id r =? id) rows.

(** The visible tables are consistent: snapshot identifiers are distinct
    and were all handed out by the sequence, every word-count row refers
    to a snapshot row, and no snapshot has more than 50 of them. *)
Definition store_wf (db : database) : Prop :=
  NoDup (map snap_id (snapshots (visible db)))
  /\ (forall s, In s (snapshots (visible db)) -> snap_id s < id_seq db)
  /\ (forall r, In r (word_velocity (visible db)) ->
                In (wv_snapshot_id r) (map snap_id (snapshots (visible db))))
  /\ (forall id, (List.length (rows_of id (word_velocity (visible db))) <= 50)%nat).

(** The items of a list that have a given count. *)
Definition with_count (k : Z) (l : Counter.t) : Counter.t :=
  filter (fun x => snd x =? k) l.

(** [isinstance(v, str)] *)
Definition is_str (v : json) : bool :=
  match v with
  | JStr _ => true
  | _ => false
  end.

(** A front page with a post whose title is [null]. *)
Definition front_page_null_title : json :=
  JObj [("hits", JArr [hit_titled "Show HN: new database engine";
                       JObj [("title", JNull); ("points", JNum 7)]])].

Definition env_null_title : env :=
  {| fetch := Response 200 (Some front_page_null_title);
     db_fault := no_fault; clock := 5 * hours24;
     tie_rank := fun _ => 0 |}.

(** An order of equal totals that is not the order of insertion. *)
Definition rank_sample (w : string) : Z :=
  if String.eqb w "engine" then 1
  else if String.eqb w "hard" then 2
  else if String.eqb w "database" then 3
  else 0.

(** The store is read one hour after the run of [env_ok]. *)
Definition env_later : env :=
  {| fetch := NetworkError "unreachable";
     db_fault := no_fault; clock := 5 * hours24 + 3600 * 1000000;
     tie_rank := rank_sample |}.

(** * Properties *)

(** ** Strings *)

Lemma in_stopwords_In (w : string) :
  in_stopwords w = true <-> In w STOPWORDS.
Proof.
  unfold in_stopwords. rewrite existsb_exists. split.
  - intros [x [Hin Heq]]. apply String.eqb_eq in Heq. now subst.
  - intros Hin. exists w. split; [assumption | apply String.eqb_refl].
Qed.

Lemma ustr_eqb_eq (a b : UStr.t) : UStr.eqb a b = true <-> a = b.
Proof.
  revert b. induction a as [|x a IH]; intros [|y b]; cbn;
    try (split; [discriminate | discriminate]); [tauto|].
  rewrite andb_true_iff, N.eqb_eq, IH. split.
  - intros [-> ->]. reflexivity.
  - intros H. injection H as -> ->. auto.
Qed.

Lemma ustr_in_stopwords_In (w : UStr.t) :
  UStr.in_stopwords w = true <-> In w (map UStr.of_string STOPWORDS).
Proof.
  unfold UStr.in_stopwords. rewrite existsb_exists. split.
  - intros [x [Hin Heq]]. apply ustr_eqb_eq in Heq. now subst.
  - intros Hin. exists w. split; [assumption | now apply ustr_eqb_eq].
Qed.

Section Lower.

Variable u : UStr.ucd.
Hypothesis Hdb : UStr.lower_idempotent u.

(** [lower] returns only characters it leaves alone. *)
Lemma lower_from_fixed (s before : UStr.t) (d : N) :
  In d (UStr.lower_from u before s) -> UStr.fixed_by_lower u d.
Proof.
  destruct Hdb as (Hmap & Hsmall & Hfinal).
  revert before. induction s as [|c s IH]; intros before Hin;
    [contradiction|].
  cbn [UStr.lower_from] in Hin. apply in_app_or in Hin as [Hin|Hin].
  - destruct (N.eqb_spec c UStr.capital_sigma) as [->|Hne].
    + destruct Hin as [<-|[]]. unfold UStr.lower_sigma.
      destruct (_ && _)%bool; assumption.
    + now apply (Hmap c).
  - now apply (IH (c :: before)).
Qed.

(** A string of such characters is its own lowercase form. *)
Lemma lower_from_id (s before : UStr.t) :
  (forall c, In c s -> UStr.fixed_by_lower u c) ->
  UStr.lower_from u before s = s.
Proof.
  revert before. induction s as [|c s IH]; intros before Hfix;
    [reflexivity|].
  cbn [UStr.lower_from].
  destruct (Hfix c (or_introl eq_refl)) as [Hne ->].
  apply N.eqb_neq in Hne. rewrite Hne.
  cbn [app]. f_equal. apply IH. intros d Hd. apply Hfix. now right.
Qed.

End Lower.

Lemma latin1_upper_spec (c : N) :
  UStr.latin1_upper c = true
  <-> (65 <= c <= 90 \/ 192 <= c <= 214 \/ 216 <= c <= 222)%N.
Proof.
  unfold UStr.latin1_upper, PyStr.between.
  rewrite !orb_true_iff, !andb_true_iff, !N.leb_le. tauto.
Qed.

(** The excerpt has the property of the whole database. *)
Lemma excerpt_idempotent : UStr.lower_idempotent UStr.excerpt.
Proof.
  assert (Hfix : forall d, UStr.latin1_upper d = false ->
                           d <> UStr.capital_sigma ->
                           UStr.fixed_by_lower UStr.excerpt d).
  { intros d Hd Hne. split; [assumption|]. cbn. rewrite Hd.
    apply N.eqb_neq in Hne. now rewrite Hne. }
  split; [|split].
  - intros c d Hc Hin. cbn in Hin.
    destruct (UStr.latin1_upper c) eqn:Hu.
    + destruct Hin as [<-|[]]. apply latin1_upper_spec in Hu.
      apply Hfix.
      * destruct (UStr.latin1_upper (c + 32)) eqn:Hu2; [|reflexivity].
        apply latin1_upper_spec in Hu2. lia.
      * unfold UStr.capital_sigma. lia.
    + apply N.eqb_neq in Hc. rewrite Hc in Hin.
      destruct Hin as [<-|[]]. apply Hfix; [assumption|].
      now apply N.eqb_neq.
  - apply Hfix; [reflexivity | discriminate].
  - apply Hfix; [reflexivity | discriminate].
Qed.

(** The space tokenizer makes its tokens of characters of the text. *)
Lemma ustr_split_spaces_aux_chars (s cur w : UStr.t) (c : N) :
  In w (UStr.split_spaces_aux cur s) -> In c w -> In c cur \/ In c s.
Proof.
  revert cur. induction s as [|x s IH]; intros cur Hw Hc.
  - destruct cur; [contradiction|].
    destruct Hw as [<-|[]]. now left.
  - cbn [UStr.split_spaces_aux] in Hw.
    destruct (N.eqb x 32).
    + destruct cur.
      * destruct (IH [] Hw Hc) as [[]|H]. right. now right.
      * destruct Hw as [<-|Hw]; [now left|].
        destruct (IH [] Hw Hc) as [[]|H]. right. now right.
    + destruct (IH _ Hw Hc) as [H|H].
      * apply in_app_or in H as [H|[<-|[]]]; [now left|]. right. now left.
      * right. now right.
Qed.

Lemma ustr_split_spaces_chars (t w : UStr.t) (c : N) :
  In w (UStr.split_spaces t) -> In c w -> In c t.
Proof.
  intros Hw Hc.
  destruct (ustr_split_spaces_aux_chars t [] w c Hw Hc) as [[]|H].
  assumption.
Qed.

(** C2, counterexample.  A title written with the mathematical bold
    capitals U+1D400 to U+1D403: [lower] leaves these letters as they
    are, they are alphabetic, and the filter keeps the word, which is
    made of uppercase letters only.  The ideographs of the second title
    are kept as well, and have no case. *)
Lemma filter_keeps_uppercase :
  UStr.filtered_words UStr.excerpt UStr.split_spaces
    [(UStr.bold_abcd ++ UStr.of_string " Database")%list; UStr.ideographs_3]
  = [UStr.bold_abcd; UStr.of_string "database"; UStr.ideographs_3]
  /\ forallb (UStr.uc_upper UStr.excerpt) UStr.bold_abcd = true
  /\ existsb (UStr.uc_lowercase UStr.excerpt) UStr.bold_abcd = false
  /\ existsb (UStr.uc_lowercase UStr.excerpt) UStr.ideographs_3 = false.
Proof.
  repeat split; vm_compute; reflexivity.
Qed.

(** C2, amended.  Whatever the titles, a word that passes the filter of
    line 42 is a non-empty string of alphabetic characters, is longer
    than 2 characters, is not a stopword and is its own lowercase form:
    it holds no letter that [lower] would change.  The character
    database is only asked to map to characters that [lower] leaves
    alone, and the tokenizer to make its alphabetic tokens of
    characters of the text. *)
Theorem filtered_words_alpha_fixed
    (u : UStr.ucd) (tokenize : UStr.t -> list UStr.t)
    (Hdb : UStr.lower_idempotent u)
    (Htok : forall t w, In w (tokenize t) -> UStr.isalpha u w = true ->
                        forall c, In c w -> In c t)
    (titles : list UStr.t) (w : UStr.t) :
  In w (UStr.filtered_words u tokenize titles) ->
  UStr.isalpha u w = true
  /\ 2 < UStr.len w
  /\ ~ In w (map UStr.of_string STOPWORDS)
  /\ UStr.lower u w = w.
Proof.
  unfold UStr.filtered_words. intros Hin.
  apply filter_In in Hin as [Htoken Hkeep].
  unfold UStr.keep in Hkeep.
  apply andb_true_iff in Hkeep as [Hkeep Hstop].
  apply andb_true_iff in Hkeep as [Halpha Hlen].
  repeat split.
  - assumption.
  - now apply Z.ltb_lt.
  - intros Hin. apply ustr_in_stopwords_In in Hin.
    rewrite Hin in Hstop. discriminate.
  - apply (lower_from_id u). intros c Hc.
    apply (Htok _ _ Htoken Halpha) in Hc.
    now apply (lower_from_fixed u Hdb) in Hc.
Qed.

Lemma filtered_words_alpha_fixed_witness :
  In (UStr.of_string "database")
     (UStr.filtered_words UStr.excerpt UStr.split_spaces
        [UStr.of_string "Show HN: New Database engine"; UStr.bold_abcd])
  /\ UStr.isalpha UStr.excerpt (UStr.of_string "database") = true
  /\ 2 < UStr.len (UStr.of_string "database")
  /\ ~ In (UStr.of_string "database") (map UStr.of_string STOPWORDS)
  /\ UStr.lower UStr.excerpt (UStr.of_string "database")
     = UStr.of_string "database".
Proof.
  split.
  - vm_compute. left. reflexivity.
  - apply (filtered_words_alpha_fixed UStr.excerpt UStr.split_spaces
             excerpt_idempotent
             (fun t w Hw _ c => ustr_split_spaces_chars t w c Hw)
             [UStr.of_string "Show HN: New Database engine";
              UStr.bold_abcd]).
    vm_compute. left. reflexivity.
Defined.

(** *** The Latin-1 strings of the handlers *)

Section Latin1.

Variable u : UStr.ucd.
Hypothesis Hagree : UStr.agrees_on_latin1 u.

Lemma of_string_not_sigma (a : ascii) : N_of_ascii a <> UStr.capital_sigma.
Proof.
  pose proof (N_ascii_bounded a). unfold UStr.capital_sigma. lia.
Qed.

(** On a string of Latin-1 characters, [lower] of the Unicode model is
    [lower] of the Latin-1 model. *)
Lemma lower_latin1 (s : string) :
  UStr.lower u (UStr.of_string s) = UStr.of_string (PyStr.lower s).
Proof.
  unfold UStr.lower, UStr.of_string. generalize (@nil N) as before.
  induction s as [|a s IH]; intros before; [reflexivity|].
  cbn [list_ascii_of_string map UStr.lower_from PyStr.lower].
  destruct (N.eqb_spec (N_of_ascii a) UStr.capital_sigma) as [Heq|_];
    [now apply of_string_not_sigma in Heq|].
  destruct (Hagree a) as [_ ->]. cbn [app]. f_equal. apply IH.
Qed.

Lemma all_alpha_latin1 (s : string) :
  forallb (UStr.uc_alpha u) (UStr.of_string s)
  = PyStr.all_chars PyStr.is_alpha_char s.
Proof.
  unfold UStr.of_string.
  induction s as [|a s IH]; [reflexivity|].
  cbn [list_ascii_of_string map forallb PyStr.all_chars].
  destruct (Hagree a) as [-> _]. now rewrite IH.
Qed.

(** And so is [isalpha]. *)
Lemma isalpha_latin1 (s : string) :
  UStr.isalpha u (UStr.of_string s) = PyStr.isalpha s.
Proof.
  destruct s as [|a s]; [reflexivity|].
  apply (all_alpha_latin1 (String a s)).
Qed.

Lemma len_latin1 (s : string) : UStr.len (UStr.of_string s) = PyStr.len s.
Proof.
  unfold UStr.len, PyStr.len, UStr.of_string. rewrite length_map.
  f_equal. induction s as [|a s IH]; [reflexivity|].
  cbn [list_ascii_of_string List.length String.length]. now rewrite IH.
Qed.

Lemma eqb_latin1 (a b : string) :
  UStr.eqb (UStr.of_string a) (UStr.of_string b) = String.eqb a b.
Proof.
  unfold UStr.of_string.
  revert b. induction a as [|x a IH]; intros [|y b]; try reflexivity.
  cbn [list_ascii_of_string map UStr.eqb String.eqb].
  rewrite IH.
  destruct (Ascii.eqb_spec x y) as [->|Hne].
  - now rewrite N.eqb_refl.
  - destruct (N.eqb_spec (N_of_ascii x) (N_of_ascii y)) as [Heq|_];
      [|reflexivity].
    elim Hne. rewrite <- (ascii_N_embedding x), <- (ascii_N_embedding y).
    now rewrite Heq.
Qed.

Lemma in_stopwords_latin1 (w : string) :
  UStr.in_stopwords (UStr.of_string w) = in_stopwords w.
Proof.
  unfold UStr.in_stopwords, in_stopwords.
  induction STOPWORDS as [|k ks IH]; [reflexivity|].
  cbn [map existsb]. now rewrite eqb_latin1, IH.
Qed.

(** The filter of line 42 is the same in both models. *)
Lemma keep_latin1 (w : string) : UStr.keep u (UStr.of_string w) = keep w.
Proof.
  unfold UStr.keep, keep.
  now rewrite isalpha_latin1, len_latin1, in_stopwords_latin1.
Qed.

Lemma of_string_app (a b : string) :
  UStr.of_string (a ++ b) = (UStr.of_string a ++ UStr.of_string b)%list.
Proof.
  unfold UStr.of_string.
  induction a as [|x a IH]; [reflexivity|].
  cbn [append list_ascii_of_string map app]. now rewrite IH.
Qed.

Lemma join_latin1 (titles : list string) :
  UStr.join (UStr.of_string " ") (map UStr.of_string titles)
  = UStr.of_string (PyStr.join " " titles).
Proof.
  induction titles as [|t titles IH]; [reflexivity|].
  destruct titles as [|t' titles]; [reflexivity|].
  change (PyStr.join " " (t :: t' :: titles))
    with (t ++ " " ++ PyStr.join " " (t' :: titles))%string.
  rewrite !of_string_app, <- IH. reflexivity.
Qed.

(** On titles of Latin-1 characters, and with tokenizers that split the
    same way, the words of the Unicode model are the words of the
    Latin-1 model the handlers use. *)
Lemma filtered_words_latin1
    (tokenize_u : UStr.t -> list UStr.t) (tokenize : string -> list string)
    (titles : list string) :
  (forall t, tokenize_u (UStr.of_string t) = map UStr.of_string (tokenize t)) ->
  UStr.filtered_words u tokenize_u (map UStr.of_string titles)
  = map UStr.of_string (filtered_words tokenize titles).
Proof.
  intros Htok. unfold UStr.filtered_words, filtered_words.
  rewrite join_latin1, lower_latin1, Htok.
  induction (tokenize (PyStr.lower (PyStr.join " " titles))) as [|w ws IH];
    [reflexivity|].
  cbn [map filter]. rewrite keep_latin1.
  destruct (keep w); cbn [map]; now rewrite IH.
Qed.

End Latin1.

(** The excerpt agrees with the Latin-1 tables. *)
Lemma excerpt_agrees : UStr.agrees_on_latin1 UStr.excerpt.
Proof.
  intros a. destruct a as [[] [] [] [] [] [] [] []];
    split; vm_compute; reflexivity.
Qed.

(** ** Counters *)

Section CounterFacts.

Import Counter.

Lemma insert_desc_perm (x : string * Z) (l : t) :
  Permutation (insert_desc x l) (x :: l).
Proof.
  induction l as [|y l IH]; simpl; [apply Permutation_refl|].
  destruct (snd y <=? snd x); [apply Permutation_refl|].
  eapply perm_trans; [apply perm_skip, IH | apply perm_swap].
Qed.

Lemma sort_desc_perm (l : t) : Permutation (sort_desc l) l.
Proof.
  induction l as [|x l IH]; simpl; [constructor|].
  eapply perm_trans; [apply insert_desc_perm | now apply perm_skip].
Qed.

Lemma insert_desc_sorted (x : string * Z) (l : t) :
  sorted_desc l -> sorted_desc (insert_desc x l).
Proof.
  unfold sorted_desc.
  induction l as [|y l IH]; simpl; intros Hs.
  - repeat constructor.
  - inversion Hs as [|? ? Hl Hy]; subst.
    destruct (snd y <=? snd x) eqn:Hle.
    + apply Z.leb_le in Hle.
      constructor; [assumption|].
      constructor; [assumption|].
      eapply Forall_impl; [|exact Hy].
      unfold ge_count. intros; lia.
    + apply Z.leb_gt in Hle.
      constructor; [now apply IH|].
      eapply Permutation_Forall.
      * apply Permutation_sym, insert_desc_perm.
      * constructor; [unfold ge_count; lia | assumption].
Qed.

Lemma sort_desc_sorted (l : t) : sorted_desc (sort_desc l).
Proof.
  induction l as [|x l IH]; simpl.
  - constructor.
  - now apply insert_desc_sorted.
Qed.

Lemma In_firstn (n : nat) (l : t) (x : string * Z) :
  In x (firstn n l) -> In x l.
Proof.
  intros Hin. rewrite <- (firstn_skipn n l). apply in_or_app. now left.
Qed.

Lemma In_skipn (n : nat) (l : t) (x : string * Z) :
  In x (skipn n l) -> In x l.
Proof.
  intros Hin. rewrite <- (firstn_skipn n l). apply in_or_app. now right.
Qed.

Lemma sorted_desc_firstn (n : nat) (l : t) :
  sorted_desc l -> sorted_desc (firstn n l).
Proof.
  unfold sorted_desc. revert l.
  induction n as [|n IH]; intros l Hs; simpl; [constructor|].
  destruct l as [|x l]; [constructor|].
  inversion Hs as [|? ? Hl Hx]; subst.
  constructor; [now apply IH|].
  rewrite Forall_forall in *.
  intros y Hy. apply Hx. revert Hy. apply In_firstn.
Qed.

(** In a sorted list, an item beyond position [n] counts no more than
    one of the first [n]. *)
Lemma sorted_desc_firstn_skipn (n : nat) (l : t) (a b : string * Z) :
  sorted_desc l -> In a (firstn n l) -> In b (skipn n l) -> snd b <= snd a.
Proof.
  unfold sorted_desc. revert l.
  induction n as [|n IH]; intros l Hs Ha Hb; simpl in *; [contradiction|].
  destruct l as [|x l]; [contradiction|].
  inversion Hs as [|? ? Hl Hx]; subst.
  destruct Ha as [<-|Ha].
  - rewrite Forall_forall in Hx. apply Hx.
    revert Hb. apply In_skipn.
  - now apply (IH l).
Qed.

Lemma most_common_sorted (n : nat) (c : t) : sorted_desc (most_common n c).
Proof.
  apply sorted_desc_firstn, sort_desc_sorted.
Qed.

Lemma most_common_length (n : nat) (c : t) :
  List.length (most_common n c) = Nat.min n (List.length c).
Proof.
  unfold most_common.
  rewrite length_firstn, (Permutation_length (sort_desc_perm c)).
  reflexivity.
Qed.

(** The summary is the head of the persisted list. *)
Lemma most_common_prefix (n m : nat) (c : t) :
  (n <= m)%nat -> most_common n c = firstn n (most_common m c).
Proof.
  intros Hle. unfold most_common.
  rewrite firstn_firstn. now rewrite Nat.min_l.
Qed.

(** *** Keys and counts of a counter built by a loop *)

Lemma add_keys_In (w k : string) (n : Z) (c : t) :
  In k (keys (add w n c)) <-> k = w \/ In k (keys c).
Proof.
  unfold keys.
  induction c as [|[k' m] c IH]; simpl.
  - intuition.
  - destruct (String.eqb_spec k' w) as [->|Hne]; simpl.
    + intuition.
    + rewrite IH. intuition.
Qed.

Lemma add_keys_NoDup (w : string) (n : Z) (c : t) :
  NoDup (keys c) -> NoDup (keys (add w n c)).
Proof.
  induction c as [|[k' m] c IH]; simpl; intros Hnd.
  - repeat constructor. intros [].
  - inversion Hnd as [|? ? Hnotin Hnd']; subst.
    destruct (String.eqb_spec k' w) as [->|Hne]; simpl.
    + now constructor.
    + constructor; [|now apply IH].
      fold (keys (add w n c)). rewrite add_keys_In.
      intros [->|Hin]; [now apply Hne | now apply Hnotin].
Qed.

Lemma add_count_of (w k : string) (n : Z) (c : t) :
  count_of k (add w n c) = count_of k c + (if String.eqb w k then n else 0).
Proof.
  induction c as [|[k' m] c IH]; simpl.
  - destruct (String.eqb w k); lia.
  - destruct (String.eqb_spec k' w) as [->|Hne]; simpl.
    + destruct (String.eqb w k); lia.
    + destruct (String.eqb_spec k' k) as [->|Hne'].
      * destruct (String.eqb_spec w k) as [->|_]; [now elim Hne | lia].
      * apply IH.
Qed.

Lemma count_of_In (w : string) (n : Z) (c : t) :
  NoDup (keys c) -> In (w, n) c -> count_of w c = n.
Proof.
  induction c as [|[k' m] c IH]; simpl; intros Hnd Hin; [contradiction|].
  inversion Hnd as [|? ? Hnotin Hnd']; subst.
  destruct Hin as [Heq|Hin].
  - inversion Heq; subst. now rewrite String.eqb_refl.
  - destruct (String.eqb_spec k' w) as [->|Hne].
    + elim Hnotin. change w with (fst (w, n)). now apply in_map.
    + now apply IH.
Qed.

Section Loop.

Context {X : Type} (kf : X -> string) (vf : X -> Z).

Lemma loop_keys_In (xs : list X) (c : t) (k : string) :
  In k (keys (Counter.loop kf vf xs c)) <-> In k (map kf xs) \/ In k (keys c).
Proof.
  unfold Counter.loop. revert c.
  induction xs as [|x xs IH]; intros c; simpl; [intuition|].
  rewrite IH, add_keys_In. intuition.
Qed.

Lemma loop_keys_NoDup (xs : list X) (c : t) :
  NoDup (keys c) -> NoDup (keys (Counter.loop kf vf xs c)).
Proof.
  unfold Counter.loop. revert c.
  induction xs as [|x xs IH]; intros c Hnd; simpl; [assumption|].
  now apply IH, add_keys_NoDup.
Qed.

Lemma loop_count_of (xs : list X) (c : t) (k : string) :
  count_of k (Counter.loop kf vf xs c)
  = count_of k c
    + fold_right Z.add 0
        (map vf (filter (fun x => String.eqb (kf x) k) xs)).
Proof.
  unfold Counter.loop. revert c.
  induction xs as [|x xs IH]; intros c; simpl; [lia|].
  rewrite IH, add_count_of.
  destruct (String.eqb (kf x) k); simpl; lia.
Qed.

Lemma loop_length (xs : list X) :
  List.length (Counter.loop kf vf xs [])
  = List.length (nodup string_dec (map kf xs)).
Proof.
  rewrite <- (length_map fst (Counter.loop kf vf xs [])).
  fold (keys (Counter.loop kf vf xs [])).
  apply Permutation_length, NoDup_Permutation.
  - apply loop_keys_NoDup. constructor.
  - apply NoDup_nodup.
  - intros k. rewrite loop_keys_In, nodup_In. simpl. intuition.
Qed.

End Loop.

Lemma of_list_loop (words : list string) :
  of_list words = Counter.loop (fun w => w) (fun _ => 1) words [].
Proof. reflexivity. Qed.

Lemma of_list_length (words : list string) :
  List.length (of_list words) = distinct words.
Proof.
  rewrite of_list_loop, loop_length, map_id. reflexivity.
Qed.

End CounterFacts.

(** C3.  For every list of filtered words, the 50 most common items
    written to the store and the 5 most common items of the summary are
    sorted by decreasing count, and there are at most [min N distinct] of
    them, for N = 50 and N = 5. *)
Theorem most_common_sorted_bounded (words : list string) :
  let c := Counter.of_list words in
  (Counter.sorted_desc (Counter.most_common 50 c)
   /\ (List.length (Counter.most_common 50 c)
       <= Nat.min 50 (Counter.distinct words))%nat)
  /\ (Counter.sorted_desc (Counter.most_common 5 c)
      /\ (List.length (Counter.most_common 5 c)
          <= Nat.min 5 (Counter.distinct words))%nat).
Proof.
  intros c. subst c.
  repeat split; try apply most_common_sorted;
    rewrite most_common_length, of_list_length; apply Nat.le_refl.
Qed.

(** ** Runs of [collect] *)

Arguments Counter.most_common : simpl never.

Ltac run_step :=
  unfold store_snapshot, get_db_connection, insert_snapshot,
    insert_word_velocity, commit, close, guarded, bind, lift, ret, raise;
  cbn.

(** Every run of [collect] ends in a response.  Either the [try] block
    raised and the response is the error of line 72, with nothing
    committed unless the failure came after the commit; or the block
    returned and the rows of the run are committed. *)
Lemma collect_run (tokenize : string -> list string) (e : env) (db : database) :
  exists resp db',
    collect tokenize e db = (Ok resp, db')
    /\ ((exists x,
           collect_try tokenize e db = (Raise x, db')
           /\ resp = {| body := Error (str x); status_code := 500 |}
           /\ (visible db' = visible db
               \/ (db_fault e OpClose <> None
                   /\ exists hits raw wc, written tokenize e db db' hits raw wc)))
        \/ (exists hits raw wc,
              collect_try tokenize e db = (Ok resp, db')
              /\ written tokenize e db db' hits raw wc
              /\ resp = {| body := Success (id_seq db) (Counter.most_common 5 wc);
                           status_code := 200 |})).
Proof.
  unfold collect, try_except, collect_try, bind, lift.
  destruct (extract_words tokenize e) as [[hits wc]|x] eqn:Hex.
  2:{ do 2 eexists. split; [reflexivity|]. left. exists x. cbn. auto. }
  run_step.
  destruct (db_fault e OpConnect) as [m|] eqn:Hconn; cbn.
  { do 2 eexists. split; [reflexivity|]. left. eexists. cbn. auto. }
  destruct (Py.slice5 hits) as [raw|x] eqn:Hraw; cbn.
  2:{ do 2 eexists. split; [reflexivity|]. left. eexists. cbn. auto. }
  destruct (db_fault e OpInsertSnapshot) as [m|] eqn:Hsnap; cbn.
  { do 2 eexists. split; [reflexivity|]. left. eexists. cbn. auto. }
  destruct (db_fault e OpInsertWords) as [m|] eqn:Hwords; cbn.
  { do 2 eexists. split; [reflexivity|]. left. eexists. cbn. auto. }
  destruct (Counter.most_common 50 wc) as [|it its] eqn:Htop; cbn.
  { do 2 eexists. split; [reflexivity|]. left. eexists. cbn. auto. }
  destruct (db_fault e OpCommit) as [m|] eqn:Hcommit; cbn.
  { do 2 eexists. split; [reflexivity|]. left. eexists. cbn. auto. }
  assert (Hw : forall db',
             committed db'
             = {| snapshots := (snapshots (committed db)
                                ++ [snapshot_of e (id_seq db) raw])%list;
                  word_velocity := (word_velocity (committed db)
                                    ++ words_of e (id_seq db) wc)%list |} ->
             written tokenize e db db' hits raw wc).
  { intros db' Hc. unfold written, store_accepts, visible.
    rewrite Hc, Htop. cbn.
    repeat split; try assumption. discriminate. }
  destruct (db_fault e OpClose) as [m|] eqn:Hclose; cbn.
  - do 2 eexists. split; [reflexivity|]. left. eexists.
    split; [reflexivity|]. split; [reflexivity|]. right.
    split; [discriminate|]. exists hits, raw, wc. apply Hw. cbn.
    unfold words_of. rewrite Htop. reflexivity.
  - do 2 eexists. split; [reflexivity|]. right. exists hits, raw, wc.
    split; [reflexivity|]. split; [|reflexivity]. apply Hw. cbn.
    unfold words_of. rewrite Htop. reflexivity.
Qed.

(** The rows of a run all carry the identifier of its snapshot, and
    store the 50 most common items in their order. *)
Lemma words_of_snapshot_id (e : env) (id : Z) (wc : Counter.t) :
  Forall (fun r => wv_snapshot_id r = id) (words_of e id wc).
Proof.
  unfold words_of. rewrite map_map. apply Forall_forall.
  intros r Hin. apply in_map_iff in Hin as [x [<- _]]. reflexivity.
Qed.

Lemma words_of_items (e : env) (id : Z) (wc : Counter.t) :
  map item_of (words_of e id wc) = Counter.most_common 50 wc.
Proof.
  unfold words_of. rewrite !map_map.
  rewrite <- (map_id (Counter.most_common 50 wc)) at 2.
  apply map_ext. intros [w n]. reflexivity.
Qed.

Lemma words_of_length (e : env) (id : Z) (wc : Counter.t) :
  (List.length (words_of e id wc) <= 50)%nat.
Proof.
  unfold words_of. rewrite !length_map, most_common_length.
  apply Nat.le_min_l.
Qed.

Lemma substring_firstn (n : nat) (s : string) :
  list_ascii_of_string (substring 0 n s) = firstn n (list_ascii_of_string s).
Proof.
  revert s. induction n as [|n IH]; intros [|c s]; simpl; try reflexivity.
  now rewrite IH.
Qed.

(** A slice holds the first 5 items of the sequence it is taken from. *)
Lemma slice5_items (v raw : json) :
  Py.slice5 v = Ok raw -> items_of raw = firstn 5 (items_of v).
Proof.
  unfold items_of.
  destruct v; unfold Py.slice5; intros H; try discriminate H;
    injection H as <-; unfold Py.iter.
  - rewrite substring_firstn. symmetry. apply firstn_map.
  - reflexivity.
Qed.

Lemma written_rows (tokenize : string -> list string) (e : env)
    (db db' : database) (hits raw : json) (wc : Counter.t) :
  written tokenize e db db' hits raw wc ->
  exists srow wrows,
    snapshots (visible db') = (snapshots (visible db) ++ [srow])%list
    /\ word_velocity (visible db') = (word_velocity (visible db) ++ wrows)%list
    /\ snap_id srow = id_seq db
    /\ snap_raw_data srow = raw
    /\ wrows = words_of e (id_seq db) wc.
Proof.
  intros (_ & _ & _ & _ & Hs & Hw).
  exists (snapshot_of e (id_seq db) raw), (words_of e (id_seq db) wc).
  repeat split; assumption.
Qed.

(** C1.  The snapshot row and the word-count rows of a run become
    visible together or not at all; when the store fails the insert of
    the word counts, or the commit, after it took the snapshot insert,
    none of them is visible. *)
Theorem collect_atomic (tokenize : string -> list string) (e : env)
    (db : database) :
  let db' := snd (collect tokenize e db) in
  (visible db' = visible db
   \/ exists srow wrows,
        snapshots (visible db') = (snapshots (visible db) ++ [srow])%list
        /\ word_velocity (visible db')
           = (word_velocity (visible db) ++ wrows)%list
        /\ wrows <> []
        /\ Forall (fun r => wv_snapshot_id r = snap_id srow) wrows)
  /\ (db_fault e OpInsertWords <> None -> visible db' = visible db)
  /\ (db_fault e OpCommit <> None -> visible db' = visible db).
Proof.
  destruct (collect_run tokenize e db) as (resp & db1 & Hrun & Hcases).
  rewrite Hrun. cbn.
  assert (Hw : forall hits raw wc,
             written tokenize e db db1 hits raw wc ->
             db_fault e OpInsertWords = None /\ db_fault e OpCommit = None).
  { intros hits raw wc (_ & (_ & _ & Hi & Hc) & _). now split. }
  assert (Hall : visible db1 = visible db
                 \/ exists hits raw wc, written tokenize e db db1 hits raw wc).
  { destruct Hcases as [(x & _ & _ & [Hsame|[_ Hwr]])|(hits & raw & wc & _ & Hwr & _)].
    - now left.
    - now right.
    - right. now exists hits, raw, wc. }
  repeat split.
  - destruct Hall as [Hsame|(hits & raw & wc & Hwr)]; [now left|right].
    destruct (written_rows _ _ _ _ _ _ _ Hwr)
      as (srow & wrows & Hs & Hwv & Hid & _ & Hrows).
    exists srow, wrows. repeat split; try assumption.
    + subst wrows. destruct Hwr as (_ & _ & _ & Hne & _).
      unfold words_of. intros Hnil.
      apply map_eq_nil in Hnil. apply map_eq_nil in Hnil. contradiction.
    + rewrite Hid, Hrows. apply words_of_snapshot_id.
  - intros Hf. destruct Hall as [Hsame|(hits & raw & wc & Hwr)]; [assumption|].
    destruct (Hw _ _ _ Hwr) as [Hi _]. contradiction.
  - intros Hf. destruct Hall as [Hsame|(hits & raw & wc & Hwr)]; [assumption|].
    destruct (Hw _ _ _ Hwr) as [_ Hc]. contradiction.
Qed.

Lemma collect_atomic_witness :
  db_fault env_words_fail OpInsertSnapshot = None
  /\ db_fault env_words_fail OpInsertWords <> None
  /\ visible (snd (collect split_spaces env_words_fail empty_db))
     = visible empty_db.
Proof.
  split; [reflexivity|]. split; [intros H; cbv in H; discriminate H|].
  apply (proj1 (proj2 (collect_atomic split_spaces env_words_fail empty_db))).
  intros H; cbv in H; discriminate H.
Defined.

(** C6.  A run leaves the visible tables as they were, or adds one
    snapshot row and at most 50 word-count rows that refer to it; the raw
    payload of the row holds at most 5 items, the first 5 of the fetched
    hits. *)
Theorem collect_bounds (tokenize : string -> list string) (e : env)
    (db : database) :
  let db' := snd (collect tokenize e db) in
  visible db' = visible db
  \/ exists srow wrows hits wc,
       snapshots (visible db') = (snapshots (visible db) ++ [srow])%list
       /\ word_velocity (visible db')
          = (word_velocity (visible db) ++ wrows)%list
       /\ Forall (fun r => wv_snapshot_id r = snap_id srow) wrows
       /\ (List.length wrows <= 50)%nat
       /\ extract_words tokenize e = Ok (hits, wc)
       /\ items_of (snap_raw_data srow) = firstn 5 (items_of hits)
       /\ (List.length (items_of (snap_raw_data srow)) <= 5)%nat.
Proof.
  destruct (collect_run tokenize e db) as (resp & db1 & Hrun & Hcases).
  rewrite Hrun. cbn.
  assert (Hall : visible db1 = visible db
                 \/ exists hits raw wc, written tokenize e db db1 hits raw wc).
  { destruct Hcases as [(x & _ & _ & [Hsame|[_ Hwr]])|(hits & raw & wc & _ & Hwr & _)].
    - now left.
    - now right.
    - right. now exists hits, raw, wc. }
  destruct Hall as [Hsame|(hits & raw & wc & Hwr)]; [now left|right].
  destruct (written_rows _ _ _ _ _ _ _ Hwr)
    as (srow & wrows & Hs & Hwv & Hid & Hraw & Hrows).
  destruct Hwr as (Hex & _ & Hslice & _).
  exists srow, wrows, hits, wc.
  assert (Hitems : items_of (snap_raw_data srow) = firstn 5 (items_of hits)).
  { rewrite Hraw. now apply slice5_items. }
  repeat split; try assumption.
  - rewrite Hid, Hrows. apply words_of_snapshot_id.
  - rewrite Hrows. apply words_of_length.
  - rewrite Hitems. apply firstn_le_length.
Qed.

(** C9.  A run of [collect] never raises.  When the [try] block returns,
    the response has status 200, the identifier the store gave to the
    snapshot row of the run and the 5 most common words; when it raises,
    the response has status 500 and the message of the exception.  The
    block does return whenever the page is fetched and parsed, at least
    one word passes the filter and the store fails no call: the run then
    answers with the identifier of the snapshot row it has committed and
    with [most_common(5)]. *)
Theorem collect_response (tokenize : string -> list string) (e : env)
    (db : database) :
  (exists resp db',
     collect tokenize e db = (Ok resp, db')
     /\ ((exists hits wc srow,
            collect_try tokenize e db = (Ok resp, db')
            /\ extract_words tokenize e = Ok (hits, wc)
            /\ resp = {| body := Success (snap_id srow)
                                         (Counter.most_common 5 wc);
                         status_code := 200 |}
            /\ snapshots (visible db')
               = (snapshots (visible db) ++ [srow])%list)
         \/ (exists x,
               collect_try tokenize e db = (Raise x, db')
               /\ resp = {| body := Error (str x); status_code := 500 |})))
  /\ (forall hits wc raw,
        extract_words tokenize e = Ok (hits, wc) ->
        Py.slice5 hits = Ok raw ->
        Counter.most_common 50 wc <> [] ->
        store_accepts e ->
        db_fault e OpClose = None ->
        exists db',
          collect tokenize e db
          = (Ok {| body := Success (id_seq db) (Counter.most_common 5 wc);
                   status_code := 200 |}, db')
          /\ snapshots (visible db')
             = (snapshots (visible db)
                ++ [snapshot_of e (id_seq db) raw])%list
          /\ word_velocity (visible db')
             = (word_velocity (visible db)
                ++ words_of e (id_seq db) wc)%list).
Proof.
  split.
  - destruct (collect_run tokenize e db) as (resp & db1 & Hrun & Hcases).
    exists resp, db1. split; [assumption|].
    destruct Hcases
      as [(x & Htry & Hresp & _)|(hits & raw & wc & Htry & Hwr & Hresp)].
    + right. now exists x.
    + left.
      destruct (written_rows _ _ _ _ _ _ _ Hwr)
        as (srow & wrows & Hs & _ & Hid & _ & _).
      destruct Hwr as (Hex & _).
      exists hits, wc, srow. rewrite Hid. auto.
  - intros hits wc raw Hex Hraw Htop (Hconn & Hsnap & Hwords & Hcommit) Hclose.
    unfold collect, try_except, collect_try, bind, lift.
    rewrite Hex. run_step.
    rewrite Hconn, Hraw. cbn. rewrite Hsnap. cbn. rewrite Hwords.
    destruct (Counter.most_common 50 wc) as [|it its] eqn:Hmc;
      [now elim Htop|].
    cbn. rewrite Hcommit. cbn. rewrite Hclose. cbn.
    eexists. split; [reflexivity|]. cbn.
    unfold words_of. rewrite Hmc. split; reflexivity.
Qed.

Lemma collect_response_witness :
  extract_words split_spaces env_ok
  = Ok (JArr [hit_titled "Show HN: new database engine";
              hit_titled "Ask HN: why is Rust so hard in Rust"],
        [("database", 1); ("engine", 1); ("rust", 2); ("hard", 1)])
  /\ exists db',
       collect split_spaces env_ok empty_db
       = (Ok {| body := Success 1 [("rust", 2); ("database", 1);
                                   ("engine", 1); ("hard", 1)];
                status_code := 200 |}, db')
       /\ map snap_id (snapshots (visible db')) = [1]
       /\ map item_of (word_velocity (visible db'))
          = [("rust", 2); ("database", 1); ("engine", 1); ("hard", 1)].
Proof.
  split; [vm_compute; reflexivity|].
  destruct (proj2 (collect_response split_spaces env_ok empty_db)
              (JArr [hit_titled "Show HN: new database engine";
                     hit_titled "Ask HN: why is Rust so hard in Rust"])
              [("database", 1); ("engine", 1); ("rust", 2); ("hard", 1)]
              (JArr [hit_titled "Show HN: new database engine";
                     hit_titled "Ask HN: why is Rust so hard in Rust"]))
    as (db' & Hrun & Hs & Hw).
  - vm_compute. reflexivity.
  - reflexivity.
  - vm_compute. discriminate.
  - repeat split; reflexivity.
  - reflexivity.
  - exists db'. split; [exact Hrun|]. split.
    + rewrite Hs. reflexivity.
    + rewrite Hw. vm_compute. reflexivity.
Defined.

(** C10.  In a successful run the summary of the response is the list of
    the first 5 (word, count) pairs of the rows the run has written. *)
Theorem summary_prefix_of_persisted (tokenize : string -> list string)
    (e : env) (db db' : database) (id code : Z) (top : list (string * Z)) :
  collect tokenize e db
  = (Ok {| body := Success id top; status_code := code |}, db') ->
  exists wrows,
    word_velocity (visible db') = (word_velocity (visible db) ++ wrows)%list
    /\ Forall (fun r => wv_snapshot_id r = id) wrows
    /\ top = firstn 5 (map item_of wrows).
Proof.
  intros Hc.
  destruct (collect_run tokenize e db) as (resp & db1 & Hrun & Hcases).
  rewrite Hrun in Hc. injection Hc as -> ->.
  destruct Hcases as [(x & _ & Hresp & _)|(hits & raw & wc & _ & Hwr & Hresp)];
    [discriminate Hresp|].
  injection Hresp as Hid Htop Hcode. subst id top code.
  destruct (written_rows _ _ _ _ _ _ _ Hwr)
    as (srow & wrows & _ & Hwv & _ & _ & Hrows).
  exists wrows. subst wrows. repeat split.
  - assumption.
  - apply words_of_snapshot_id.
  - rewrite words_of_items. apply most_common_prefix. lia.
Qed.

Lemma summary_prefix_of_persisted_witness :
  exists db' wrows,
    collect split_spaces env_ok empty_db
    = (Ok {| body := Success 1 [("rust", 2); ("database", 1); ("engine", 1); ("hard", 1)];
             status_code := 200 |}, db')
    /\ word_velocity (visible db')
       = (word_velocity (visible empty_db) ++ wrows)%list
    /\ Forall (fun r => wv_snapshot_id r = 1) wrows
    /\ [("rust", 2); ("database", 1); ("engine", 1); ("hard", 1)]
       = firstn 5 (map item_of wrows).
Proof.
  exists (snd (collect split_spaces env_ok empty_db)).
  assert (Hrun : collect split_spaces env_ok empty_db
                 = (Ok {| body := Success 1 [("rust", 2); ("database", 1);
                                             ("engine", 1); ("hard", 1)];
                          status_code := 200 |},
                    snd (collect split_spaces env_ok empty_db)))
    by (vm_compute; reflexivity).
  destruct (summary_prefix_of_persisted split_spaces env_ok empty_db _ _ _ _ Hrun)
    as (wrows & H1 & H2 & H3).
  exists wrows. auto.
Defined.

(** C4, counterexample.  A response with status 500 and a body that
    parses is processed like any other: the run succeeds and a snapshot
    row becomes visible. *)
Lemma collect_ignores_status_500 :
  fetch env_status_500 = Response 500 (Some front_page)
  /\ fst (collect split_spaces env_status_500 empty_db)
     = Ok {| body := Success 1 [("rust", 2); ("database", 1); ("engine", 1); ("hard", 1)];
             status_code := 200 |}
  /\ map snap_id
       (snapshots (visible (snd (collect split_spaces env_status_500 empty_db))))
     = [1].
Proof.
  repeat split; vm_compute; reflexivity.
Qed.

(** C4, amended.  When the request raises or the body of the response is
    not JSON, [collect] answers with the error response of status 500
    and the store is left as it was: no connection is opened and no row
    is written.  The status code of the response plays no part: a run
    on a response is the same run, with the same answer and the same
    store, as on a response with that body and any other status. *)
Theorem collect_fetch_failure (tokenize : string -> list string) (e : env)
    (db : database) :
  ((exists msg, fetch e = NetworkError msg)
   \/ (exists status, fetch e = Response status None) ->
   exists message,
     collect tokenize e db
     = (Ok {| body := Error message; status_code := 500 |}, db))
  /\ (forall status status' body,
        fetch e = Response status body ->
        collect tokenize e db
        = collect tokenize
            {| fetch := Response status' body; db_fault := db_fault e;
               clock := clock e; tie_rank := tie_rank e |} db).
Proof.
  split.
  - intros Hf.
    assert (Hx : exists x, extract_words tokenize e = Raise x).
    { unfold extract_words, fetch_json.
      destruct Hf as [[msg ->]|[status ->]]; eexists; reflexivity. }
    destruct Hx as [x Hx].
    exists (str x).
    unfold collect, try_except, collect_try, bind, lift. now rewrite Hx.
  - intros status status' body Hf.
    set (e' := {| fetch := Response status' body; db_fault := db_fault e;
                  clock := clock e; tie_rank := tie_rank e |}).
    assert (Hex : extract_words tokenize e = extract_words tokenize e').
    { unfold extract_words, fetch_json. rewrite Hf. cbn [fetch e'].
      destruct body; reflexivity. }
    unfold collect, try_except, collect_try, bind, lift.
    rewrite Hex.
    destruct (extract_words tokenize e') as [[hits wc]|x]; reflexivity.
Qed.

Lemma collect_fetch_failure_witness :
  fetch env_not_json = Response 500 None
  /\ (exists message,
        collect split_spaces env_not_json empty_db
        = (Ok {| body := Error message; status_code := 500 |}, empty_db))
  /\ collect split_spaces env_status_500 empty_db
     = collect split_spaces env_ok empty_db.
Proof.
  split; [reflexivity|]. split.
  - apply (proj1 (collect_fetch_failure split_spaces env_not_json empty_db)).
    right. exists 500. reflexivity.
  - apply (proj2 (collect_fetch_failure split_spaces env_status_500 empty_db)
             500 200 (Some front_page)).
    reflexivity.
Defined.

(** C5.  When no word passes the filter, the statement of line 63 has
    no tuple after [VALUES]: the run ends in the error response and the
    snapshot row it had inserted is never committed. *)
Theorem collect_without_words (tokenize : string -> list string) (e : env)
    (db : database) (hits : json) :
  extract_words tokenize e = Ok (hits, []) ->
  exists x,
    fst (collect tokenize e db)
    = Ok {| body := Error (str x); status_code := 500 |}
    /\ visible (snd (collect tokenize e db)) = visible db.
Proof.
  intros Hex.
  destruct (collect_run tokenize e db) as (resp & db1 & Hrun & Hcases).
  rewrite Hrun. cbn.
  assert (Hno : forall h r wc, ~ written tokenize e db db1 h r wc).
  { intros h r wc (Hex' & _ & _ & Hne & _).
    rewrite Hex in Hex'. injection Hex' as _ <-. now apply Hne. }
  destruct Hcases as [(x & _ & Hresp & [Hsame|[_ (h & r & wc & Hwr)]])
                     |(h & r & wc & _ & Hwr & _)].
  - exists x. now subst resp.
  - now elim (Hno h r wc).
  - now elim (Hno h r wc).
Qed.

Lemma collect_without_words_witness :
  extract_words split_spaces env_no_hits = Ok (JArr [], [])
  /\ exists x,
       fst (collect split_spaces env_no_hits empty_db)
       = Ok {| body := Error (str x); status_code := 500 |}
       /\ visible (snd (collect split_spaces env_no_hits empty_db))
          = visible empty_db.
Proof.
  split; [reflexivity|].
  apply (collect_without_words split_spaces env_no_hits empty_db (JArr [])).
  reflexivity.
Defined.

(** The run of C5 on a front page without posts, with a store that fails
    no call: the error is the syntax error of the second insert. *)
Example collect_no_hits_run :
  collect split_spaces env_no_hits empty_db
  = (Ok {| body := Error "syntax error at end of input"; status_code := 500 |},
     {| committed := no_rows;
        pending := {| snapshots := [snapshot_of env_no_hits 1 (JArr [])];
                      word_velocity := [] |};
        id_seq := 2 |}).
Proof. vm_compute. reflexivity. Qed.

(** ** The trend query *)

Lemma group_sum_loop (rows : list word_row) :
  group_sum rows = Counter.loop wv_word wv_count rows [].
Proof. reflexivity. Qed.

Lemma group_sum_NoDup (rows : list word_row) :
  NoDup (Counter.keys (group_sum rows)).
Proof.
  rewrite group_sum_loop. apply loop_keys_NoDup. constructor.
Qed.

Lemma group_sum_total (rows : list word_row) (w : string) (n : Z) :
  In (w, n) (group_sum rows) ->
  In w (map wv_word rows) /\ n = total_of w rows.
Proof.
  intros Hin. split.
  - assert (Hk : In w (Counter.keys (group_sum rows)))
      by (change w with (fst (w, n)); now apply in_map).
    rewrite group_sum_loop in Hk. apply loop_keys_In in Hk as [Hk|[]].
    assumption.
  - rewrite <- (count_of_In w n (group_sum rows) (group_sum_NoDup rows) Hin).
    rewrite group_sum_loop, loop_count_of. reflexivity.
Qed.

Lemma group_sum_complete (rows : list word_row) (w : string) :
  In w (map wv_word rows) -> In (w, total_of w rows) (group_sum rows).
Proof.
  intros Hin.
  assert (Hk : In w (Counter.keys (group_sum rows))).
  { rewrite group_sum_loop. apply loop_keys_In. now left. }
  apply in_map_iff in Hk as [[w' n] [Hw Hin']]. simpl in Hw. subst w'.
  destruct (group_sum_total rows w n Hin') as [_ ->]. assumption.
Qed.

Lemma insert_rank_perm (e : env) (x : string * Z) (l : Counter.t) :
  Permutation (insert_rank e x l) (x :: l).
Proof.
  induction l as [|y l IH]; simpl; [apply Permutation_refl|].
  destruct (tie_rank e (fst x) <=? tie_rank e (fst y));
    [apply Permutation_refl|].
  eapply perm_trans; [apply perm_skip, IH | apply perm_swap].
Qed.

(** Whatever the store's order, it returns the same groups. *)
Lemma store_order_perm (e : env) (groups : Counter.t) :
  Permutation (store_order e groups) groups.
Proof.
  induction groups as [|x groups IH]; simpl; [constructor|].
  eapply perm_trans; [apply insert_rank_perm | now apply perm_skip].
Qed.

Lemma insert_rank_sorted (e : env) (x : string * Z) (l : Counter.t) :
  StronglySorted (le_rank (tie_rank e)) l ->
  StronglySorted (le_rank (tie_rank e)) (insert_rank e x l).
Proof.
  induction l as [|y l IH]; simpl; intros Hs.
  - repeat constructor.
  - inversion Hs as [|? ? Hl Hy]; subst.
    destruct (tie_rank e (fst x) <=? tie_rank e (fst y)) eqn:Hle.
    + apply Z.leb_le in Hle.
      constructor; [assumption|].
      constructor; [assumption|].
      eapply Forall_impl; [|exact Hy].
      unfold le_rank. intros; lia.
    + apply Z.leb_gt in Hle.
      constructor; [now apply IH|].
      eapply Permutation_Forall.
      * apply Permutation_sym, insert_rank_perm.
      * constructor; [unfold le_rank; lia | assumption].
Qed.

Lemma store_order_sorted (e : env) (groups : Counter.t) :
  StronglySorted (le_rank (tie_rank e)) (store_order e groups).
Proof.
  induction groups as [|x groups IH]; simpl.
  - constructor.
  - now apply insert_rank_sorted.
Qed.

(** Two arrangements of the same items by a rank that tells the items
    apart are the same list. *)
Lemma rank_sorted_unique (rank : string -> Z) (l1 l2 : Counter.t) :
  (forall a b, In a l1 -> In b l1 -> rank (fst a) = rank (fst b) -> a = b) ->
  StronglySorted (le_rank rank) l1 ->
  StronglySorted (le_rank rank) l2 ->
  Permutation l1 l2 -> l1 = l2.
Proof.
  revert l2. induction l1 as [|a l1 IH]; intros l2 Hinj H1 H2 Hp.
  - apply Permutation_nil in Hp. now subst.
  - destruct l2 as [|b l2];
      [apply Permutation_sym, Permutation_nil in Hp; discriminate Hp|].
    inversion H1 as [|? ? H1' Ha]; subst.
    inversion H2 as [|? ? H2' Hb]; subst.
    rewrite Forall_forall in Ha, Hb. unfold le_rank in Ha, Hb.
    assert (Hina : In a (b :: l2))
      by (apply (Permutation_in _ Hp); now left).
    assert (Hinb : In b (a :: l1))
      by (apply (Permutation_in _ (Permutation_sym Hp)); now left).
    assert (Hab : a = b).
    { apply Hinj; [now left | assumption |].
      destruct Hina as [->|Hina]; [reflexivity|].
      destruct Hinb as [->|Hinb]; [reflexivity|].
      specialize (Ha b Hinb). specialize (Hb a Hina). lia. }
    subst b. f_equal. apply IH; try assumption.
    + intros x y Hx Hy. apply Hinj; now right.
    + now apply Permutation_cons_inv in Hp.
Qed.

Lemma index_of_nonneg (w : string) (l : list string) : 0 <= index_of w l.
Proof.
  induction l as [|k l IH]; cbn [index_of]; [lia|].
  destruct (String.eqb k w); lia.
Qed.

Lemma index_of_inj (l : list string) (w w' : string) :
  In w l -> In w' l -> index_of w l = index_of w' l -> w = w'.
Proof.
  induction l as [|k l IH]; intros Hw Hw' Heq; [contradiction|].
  cbn [index_of] in Heq.
  destruct (String.eqb_spec k w) as [Hkw|Hkw];
    destruct (String.eqb_spec k w') as [Hkw'|Hkw'].
  - congruence.
  - pose proof (index_of_nonneg w' l). lia.
  - pose proof (index_of_nonneg w l). lia.
  - destruct Hw as [Hw|Hw]; [contradiction|].
    destruct Hw' as [Hw'|Hw']; [contradiction|].
    apply IH; try assumption. lia.
Qed.

Lemma sorted_rank_shift (r r' : string -> Z) (l : Counter.t) :
  (forall y, In y l -> r' (fst y) = 1 + r (fst y)) ->
  StronglySorted (le_rank r) l -> StronglySorted (le_rank r') l.
Proof.
  unfold le_rank.
  induction l as [|x l IH]; intros Hshift Hs; [constructor|].
  inversion Hs as [|? ? Hl Hx]; subst.
  constructor.
  - apply IH; [|assumption]. intros y Hy. apply Hshift. now right.
  - rewrite Forall_forall in *. intros y Hy.
    rewrite (Hshift x) by now left.
    rewrite (Hshift y) by now right.
    specialize (Hx y Hy). lia.
Qed.

(** An answer with distinct words is ordered by the rank made from it. *)
Lemma rank_of_answer_sorted (answer : Counter.t) :
  NoDup (map fst answer) ->
  StronglySorted (le_rank (rank_of_answer answer)) answer.
Proof.
  induction answer as [|x answer IH]; intros Hnd; [constructor|].
  cbn [map] in Hnd. inversion Hnd as [|? ? Hnotin Hnd']; subst.
  assert (Htail : forall y, In y answer ->
            rank_of_answer (x :: answer) (fst y)
            = 1 + rank_of_answer answer (fst y)).
  { intros y Hy. unfold rank_of_answer. cbn [map index_of].
    destruct (String.eqb_spec (fst x) (fst y)) as [Heq|_]; [|reflexivity].
    elim Hnotin. rewrite Heq. now apply in_map. }
  constructor.
  - apply (sorted_rank_shift (rank_of_answer answer)); [assumption|].
    now apply IH.
  - apply Forall_forall. intros y Hy. unfold le_rank.
    rewrite (Htail y Hy).
    unfold rank_of_answer at 1. cbn [map index_of].
    rewrite String.eqb_refl.
    pose proof (index_of_nonneg (fst y) (map fst answer)).
    unfold rank_of_answer. lia.
Qed.

Lemma sort_desc_of_sorted (l : Counter.t) :
  Counter.sorted_desc l -> Counter.sort_desc l = l.
Proof.
  unfold Counter.sorted_desc.
  induction l as [|x l IH]; intros Hs; [reflexivity|].
  inversion Hs as [|? ? Hl Hx]; subst.
  cbn [Counter.sort_desc fold_right]. fold (Counter.sort_desc l).
  rewrite (IH Hl).
  destruct l as [|y l]; [reflexivity|].
  cbn [Counter.insert_desc].
  inversion Hx as [|? ? Hy _]; subst. unfold Counter.ge_count in Hy.
  apply Z.leb_le in Hy. now rewrite Hy.
Qed.

(** The model leaves the store every choice the query leaves it: any
    arrangement of the groups by decreasing total is the answer of the
    query for some order of equal totals. *)
Lemma trend_query_any_order (f : fetch_outcome)
    (faults : db_op -> option string) (now : Z) (rows : list word_row)
    (answer : Counter.t) :
  let recent := filter (fun r => now - hours24 <? wv_observed_at r) rows in
  Permutation answer (group_sum recent) ->
  Counter.sorted_desc answer ->
  trend_query {| fetch := f; db_fault := faults; clock := now;
                 tie_rank := rank_of_answer answer |} rows
  = firstn 10 answer.
Proof.
  intros recent Hperm Hsorted.
  set (e := {| fetch := f; db_fault := faults; clock := now;
               tie_rank := rank_of_answer answer |}).
  assert (Hnd : NoDup (map fst answer)).
  { eapply Permutation_NoDup.
    - apply Permutation_sym, Permutation_map, Hperm.
    - apply group_sum_NoDup. }
  assert (Hord : store_order e (group_sum recent) = answer).
  { symmetry. apply (rank_sorted_unique (rank_of_answer answer)).
    - intros [w n] [w' n'] Ha Hb Heq. cbn in Heq.
      assert (Hw : w = w').
      { apply (index_of_inj (map fst answer)); try assumption.
        - change w with (fst (w, n)). now apply in_map.
        - change w' with (fst (w', n')). now apply in_map. }
      subst w'. f_equal.
      apply (Permutation_in _ Hperm) in Ha, Hb.
      apply group_sum_total in Ha as [_ ->], Hb as [_ ->]. reflexivity.
    - now apply rank_of_answer_sorted.
    - apply (store_order_sorted e).
    - eapply perm_trans; [exact Hperm|].
      apply Permutation_sym, store_order_perm. }
  unfold trend_query. fold recent.
  change (filter (in_window e) rows) with recent.
  rewrite Hord, sort_desc_of_sorted by assumption. reflexivity.
Qed.

Lemma NoDup_firstn {A : Type} (n : nat) (l : list A) :
  NoDup l -> NoDup (firstn n l).
Proof.
  intros Hnd. rewrite <- (firstn_skipn n l) in Hnd.
  now apply NoDup_app_remove_r in Hnd.
Qed.

(** The rows the query of [dashboard] reads in a session that has
    written nothing. *)
Lemma dashboard_run (e : env) (db : database) :
  db_fault e OpConnect = None ->
  db_fault e OpSelect = None ->
  db_fault e OpClose = None ->
  fst (dashboard e db)
  = Ok (map fst (trend_query e (word_velocity (visible db))),
        map snd (trend_query e (word_velocity (visible db)))).
Proof.
  intros Hc Hs Hcl.
  unfold dashboard, get_db_connection, select_trends, close, guarded,
    bind, ret, session_rows, visible.
  rewrite Hc, Hs, Hcl. cbn. rewrite app_nil_r. reflexivity.
Qed.

(** C7, counterexample.  A row observed exactly 24 hours before the
    query belongs to the window [[now - 24 h, now)] of the specification
    and is left out by the comparison of line 86. *)
Lemma trend_window_boundary :
  wv_observed_at row_at_boundary = clock env_ok - hours24
  /\ Spec.topWords (clock env_ok) hours24 10 [row_at_boundary] = [("rust", 3)]
  /\ trend_query env_ok [row_at_boundary] = [].
Proof.
  repeat split; vm_compute; reflexivity.
Qed.

(** C7, amended.  The query of [dashboard] takes the rows observed
    strictly later than 24 hours before the store's clock, with no upper
    bound; it returns one pair per word of these rows, with the sum of
    the word's counts, sorted by decreasing total and cut to 10 pairs, so
    that a word left out has a total no greater than any total
    returned.  This holds whatever order the store gives to words with
    equal totals.  [dashboard] hands the words and the totals of the
    list to the template. *)
Theorem trend_query_meaning (e : env) (rows : list word_row) :
  let recent := filter (fun r => clock e - hours24 <? wv_observed_at r) rows in
  let res := trend_query e rows in
  Counter.sorted_desc res
  /\ NoDup (map fst res)
  /\ (forall w n, In (w, n) res ->
                  In w (map wv_word recent) /\ n = total_of w recent)
  /\ List.length res = Nat.min 10 (Counter.distinct (map wv_word recent))
  /\ (forall w, In w (map wv_word recent) ->
                In (w, total_of w recent) res
                \/ forall x, In x res -> total_of w recent <= snd x)
  /\ (forall db,
         rows = word_velocity (visible db) ->
         db_fault e OpConnect = None ->
         db_fault e OpSelect = None ->
         db_fault e OpClose = None ->
         fst (dashboard e db) = Ok (map fst res, map snd res)).
Proof.
  intros recent res.
  set (groups := store_order e (group_sum recent)).
  assert (Hres : res = firstn 10 (Counter.sort_desc groups))
    by reflexivity.
  assert (Hperm : Permutation (Counter.sort_desc groups) (group_sum recent))
    by (eapply perm_trans; [apply sort_desc_perm | apply store_order_perm]).
  assert (Hsorted := sort_desc_sorted groups).
  repeat split.
  - rewrite Hres. now apply sorted_desc_firstn.
  - rewrite Hres, <- firstn_map. apply NoDup_firstn.
    eapply Permutation_NoDup.
    + apply Permutation_sym, Permutation_map, Hperm.
    + apply group_sum_NoDup.
  - rewrite Hres in H. apply In_firstn in H.
    apply (Permutation_in _ Hperm) in H.
    now apply group_sum_total in H.
  - rewrite Hres in H. apply In_firstn in H.
    apply (Permutation_in _ Hperm) in H.
    now apply group_sum_total in H.
  - rewrite Hres, length_firstn, (Permutation_length Hperm).
    rewrite group_sum_loop, loop_length. reflexivity.
  - intros w Hw.
    apply group_sum_complete in Hw.
    apply (Permutation_in _ (Permutation_sym Hperm)) in Hw.
    rewrite <- (firstn_skipn 10 (Counter.sort_desc groups)) in Hw.
    apply in_app_or in Hw as [Hw|Hw].
    + left. now rewrite Hres.
    + right. intros x Hx. rewrite Hres in Hx.
      apply (sorted_desc_firstn_skipn 10 _ x (w, total_of w recent)
               Hsorted Hx Hw).
  - intros db -> Hc Hs Hcl. now apply dashboard_run.
Qed.

Lemma trend_query_meaning_witness :
  fst (dashboard env_later (snd (collect split_spaces env_ok empty_db)))
  = Ok (["rust"; "engine"; "hard"; "database"], [2; 1; 1; 1]).
Proof.
  apply (proj2 (proj2 (proj2 (proj2 (proj2
           (trend_query_meaning env_later
              (word_velocity
                 (visible (snd (collect split_spaces env_ok empty_db)))))))))
           (snd (collect split_spaces env_ok empty_db)));
    reflexivity.
Defined.

(** C8.  When no row of the store lies in the window, the query returns
    the empty list; with a store that fails no call, [dashboard] returns
    normally, with no label and no value. *)
Theorem trends_empty_window (e : env) (db : database) :
  (forall r, In r (word_velocity (visible db)) -> in_window e r = false) ->
  trend_query e (word_velocity (visible db)) = []
  /\ (db_fault e OpConnect = None ->
      db_fault e OpSelect = None ->
      db_fault e OpClose = None ->
      fst (dashboard e db) = Ok ([], [])).
Proof.
  intros Hout.
  assert (Hq : trend_query e (word_velocity (visible db)) = []).
  { unfold trend_query.
    replace (filter (in_window e) (word_velocity (visible db)))
      with (@nil word_row); [reflexivity|].
    symmetry.
    induction (word_velocity (visible db)) as [|r rows IH]; [reflexivity|].
    simpl. rewrite (Hout r) by now left.
    apply IH. intros r' Hr'. apply Hout. now right. }
  split; [assumption|].
  intros Hc Hs Hcl.
  rewrite (dashboard_run e db Hc Hs Hcl), Hq. reflexivity.
Qed.

Lemma trends_empty_window_witness :
  (forall r, In r (word_velocity (visible db_old)) ->
             in_window env_ok r = false)
  /\ trend_query env_ok (word_velocity (visible db_old)) = []
  /\ fst (dashboard env_ok db_old) = Ok ([], []).
Proof.
  assert (Hout : forall r, In r (word_velocity (visible db_old)) ->
                           in_window env_ok r = false)
    by (intros r [<-|[]]; reflexivity).
  split; [exact Hout|].
  destruct (trends_empty_window env_ok db_old Hout) as [Hq Hd].
  split; [exact Hq|].
  apply Hd; reflexivity.
Defined.

(** * Further properties of the code *)

(** ** Counting (line 43) *)

Lemma occurrences_sum (words : list string) (w : string) :
  fold_right Z.add 0
    (map (fun _ : string => 1) (filter (fun x => String.eqb x w) words))
  = Z.of_nat (count_occ string_dec words w).
Proof.
  induction words as [|x words IH]; [reflexivity|].
  cbn [filter count_occ].
  destruct (String.eqb_spec x w) as [->|Hne].
  - destruct (string_dec w w) as [_|Hn]; [|now elim Hn].
    cbn [map fold_right]. rewrite IH. lia.
  - destruct (string_dec x w) as [Heq|_]; [now elim Hne|]. exact IH.
Qed.

Lemma of_list_count_of (words : list string) (w : string) :
  Counter.count_of w (Counter.of_list words)
  = Z.of_nat (count_occ string_dec words w).
Proof.
  rewrite of_list_loop, loop_count_of. cbn [Counter.count_of].
  rewrite occurrences_sum. lia.
Qed.

Lemma of_list_NoDup (words : list string) :
  NoDup (Counter.keys (Counter.of_list words)).
Proof.
  rewrite of_list_loop. apply loop_keys_NoDup. constructor.
Qed.

Lemma of_list_keys_In (words : list string) (w : string) :
  In w (Counter.keys (Counter.of_list words)) <-> In w words.
Proof.
  rewrite of_list_loop, loop_keys_In, map_id. cbn. intuition.
Qed.

Lemma of_list_item (words : list string) (w : string) (n : Z) :
  In (w, n) (Counter.of_list words) ->
  In w words /\ n = Z.of_nat (count_occ string_dec words w) /\ 1 <= n.
Proof.
  intros Hin.
  assert (Hn : n = Z.of_nat (count_occ string_dec words w)).
  { rewrite <- of_list_count_of. symmetry.
    apply count_of_In; [apply of_list_NoDup | assumption]. }
  assert (Hw : In w words).
  { apply of_list_keys_In. change w with (fst (w, n)). now apply in_map. }
  repeat split; try assumption.
  apply (count_occ_In string_dec) in Hw. lia.
Qed.

(** X1.  [Counter(words)] has exactly one item per distinct word of the
    list, and the count of an item is the number of occurrences of its
    word, which is at least 1. *)
Theorem counter_counts_occurrences (words : list string) :
  NoDup (map fst (Counter.of_list words))
  /\ (forall w, In w words <-> In w (map fst (Counter.of_list words)))
  /\ (forall w n, In (w, n) (Counter.of_list words) ->
                  n = Z.of_nat (count_occ string_dec words w) /\ 1 <= n).
Proof.
  split; [apply of_list_NoDup|].
  split; [intros w; symmetry; apply of_list_keys_In|].
  intros w n Hin. now apply of_list_item in Hin.
Qed.

(** ** Selection of the most common words (lines 58 and 69) *)

(** X2.  [most_common(n)] returns items of the counter, each word once
    with its number of occurrences, and a word it leaves out occurs no
    more often than any word it returns. *)
Theorem most_common_selects_top (n : nat) (words : list string) :
  let top := Counter.most_common n (Counter.of_list words) in
  NoDup (map fst top)
  /\ (forall w k, In (w, k) top ->
                  In w words /\ k = Z.of_nat (count_occ string_dec words w))
  /\ (forall w, In w words ->
                In w (map fst top)
                \/ forall x, In x top ->
                             Z.of_nat (count_occ string_dec words w) <= snd x).
Proof.
  intros top.
  assert (Htop : top = firstn n (Counter.sort_desc (Counter.of_list words)))
    by reflexivity.
  assert (Hperm := sort_desc_perm (Counter.of_list words)).
  assert (Hsorted := sort_desc_sorted (Counter.of_list words)).
  split; [|split].
  - rewrite Htop, <- firstn_map. apply NoDup_firstn.
    eapply Permutation_NoDup; [|exact (of_list_NoDup words)].
    apply Permutation_sym, Permutation_map, Hperm.
  - intros w k Hin. rewrite Htop in Hin. apply In_firstn in Hin.
    apply (Permutation_in _ Hperm) in Hin.
    apply of_list_item in Hin. intuition.
  - intros w Hw. apply of_list_keys_In in Hw.
    apply in_map_iff in Hw as [[w' k] [Hfst Hin]]. simpl in Hfst. subst w'.
    destruct (of_list_item words w k Hin) as (_ & Hk & _).
    apply (Permutation_in _ (Permutation_sym Hperm)) in Hin.
    rewrite <- (firstn_skipn n (Counter.sort_desc (Counter.of_list words)))
      in Hin.
    apply in_app_or in Hin as [Hin|Hin].
    + left. rewrite Htop. change w with (fst (w, k)). now apply in_map.
    + right. intros x Hx. rewrite Htop in Hx. rewrite <- Hk.
      apply (sorted_desc_firstn_skipn n _ x (w, k) Hsorted Hx Hin).
Qed.

Lemma with_count_insert_desc (k : Z) (x : string * Z) (l : Counter.t) :
  with_count k (Counter.insert_desc x l) = with_count k (x :: l).
Proof.
  unfold with_count.
  induction l as [|y l IH]; [reflexivity|].
  cbn [Counter.insert_desc].
  destruct (snd y <=? snd x) eqn:Hle; [reflexivity|].
  apply Z.leb_gt in Hle.
  cbn [filter] in *. rewrite IH.
  destruct (snd x =? k) eqn:Hx; [|reflexivity].
  apply Z.eqb_eq in Hx.
  destruct (snd y =? k) eqn:Hy; [|reflexivity].
  apply Z.eqb_eq in Hy. lia.
Qed.

Lemma with_count_sort_desc (k : Z) (l : Counter.t) :
  with_count k (Counter.sort_desc l) = with_count k l.
Proof.
  induction l as [|x l IH]; [reflexivity|].
  cbn [Counter.sort_desc fold_right]. fold (Counter.sort_desc l).
  rewrite with_count_insert_desc. unfold with_count in *.
  cbn [filter]. now rewrite IH.
Qed.

(** X3.  Ties are broken by insertion order: the items of
    [most_common(n)] that have a given count are the first of the
    counter's items with that count, in the counter's order. *)
Theorem most_common_ties_first_seen (n : nat) (c : Counter.t) (k : Z) :
  exists rest,
    with_count k c = (with_count k (Counter.most_common n c) ++ rest)%list.
Proof.
  exists (with_count k (skipn n (Counter.sort_desc c))).
  unfold Counter.most_common, with_count.
  rewrite <- filter_app, firstn_skipn.
  symmetry. apply with_count_sort_desc.
Qed.

(** ** Letter case (line 39) *)

Lemma lower_app (s1 s2 : string) :
  PyStr.lower (s1 ++ s2) = (PyStr.lower s1 ++ PyStr.lower s2)%string.
Proof.
  induction s1 as [|c s1 IH]; simpl; [reflexivity|]. now rewrite IH.
Qed.

Lemma lower_char_idempotent (c : ascii) :
  PyStr.lower_char (PyStr.lower_char c) = PyStr.lower_char c.
Proof.
  destruct c as [[] [] [] [] [] [] [] []]; reflexivity.
Qed.

Lemma lower_idempotent (s : string) :
  PyStr.lower (PyStr.lower s) = PyStr.lower s.
Proof.
  induction s as [|c s IH]; simpl; [reflexivity|].
  now rewrite lower_char_idempotent, IH.
Qed.

Lemma lower_join (titles : list string) :
  PyStr.lower (PyStr.join " " (map PyStr.lower titles))
  = PyStr.lower (PyStr.join " " titles).
Proof.
  induction titles as [|t titles IH]; [reflexivity|].
  destruct titles as [|t' titles].
  - cbn [map PyStr.join]. apply lower_idempotent.
  - change (PyStr.join " " (map PyStr.lower (t :: t' :: titles)))
      with (PyStr.lower t ++ " "
            ++ PyStr.join " " (map PyStr.lower (t' :: titles)))%string.
    change (PyStr.join " " (t :: t' :: titles))
      with (t ++ " " ++ PyStr.join " " (t' :: titles))%string.
    rewrite !lower_app, IH, lower_idempotent. reflexivity.
Qed.

(** X4.  The words do not depend on the letter case of the titles:
    lowering every title first gives the same list of filtered words,
    whatever the tokenizer. *)
Theorem filtered_words_case_insensitive
    (tokenize : string -> list string) (titles : list string) :
  filtered_words tokenize (map PyStr.lower titles)
  = filtered_words tokenize titles.
Proof.
  unfold filtered_words. now rewrite lower_join.
Qed.

(** ** The rows a run writes (lines 42-63) *)

Lemma keep_true (w : string) :
  keep w = true ->
  PyStr.isalpha w = true /\ 2 < PyStr.len w /\ ~ In w STOPWORDS.
Proof.
  unfold keep. intros Hk.
  apply andb_true_iff in Hk as [Hk Hstop].
  apply andb_true_iff in Hk as [Halpha Hlen].
  repeat split; [assumption | now apply Z.ltb_lt |].
  intros Hin. apply in_stopwords_In in Hin.
  rewrite Hin in Hstop. discriminate.
Qed.

(** The counter of a run counts the filtered words of some list of
    titles. *)
Lemma extract_words_counts (tokenize : string -> list string) (e : env)
    (hits : json) (wc : Counter.t) :
  extract_words tokenize e = Ok (hits, wc) ->
  exists titles, wc = Counter.of_list (filtered_words tokenize titles).
Proof.
  unfold extract_words.
  destruct (fetch_json e) as [data|x]; [|discriminate].
  destruct (Py.get data "hits" (JArr [])) as [h|x]; [|discriminate].
  destruct (Py.iter h) as [items|x]; [|discriminate].
  destruct (Py.titles_of items) as [vs|x]; [|discriminate].
  destruct (Py.all_str vs) as [titles|x]; [|discriminate].
  intros H. injection H as _ <-. now exists titles.
Qed.

Lemma most_common_In (n : nat) (c : Counter.t) (x : string * Z) :
  In x (Counter.most_common n c) -> In x c.
Proof.
  unfold Counter.most_common. intros Hin. apply In_firstn in Hin.
  now apply (Permutation_in _ (sort_desc_perm c)).
Qed.

Lemma most_common_NoDup (n : nat) (c : Counter.t) :
  NoDup (Counter.keys c) -> NoDup (Counter.keys (Counter.most_common n c)).
Proof.
  unfold Counter.most_common, Counter.keys. intros Hnd.
  rewrite <- firstn_map. apply NoDup_firstn.
  eapply Permutation_NoDup; [|exact Hnd].
  apply Permutation_sym, Permutation_map, sort_desc_perm.
Qed.

Lemma words_of_In (e : env) (id : Z) (wc : Counter.t) (r : word_row) :
  In r (words_of e id wc) ->
  In (wv_word r, wv_count r) (Counter.most_common 50 wc)
  /\ wv_snapshot_id r = id
  /\ wv_observed_at r = clock e.
Proof.
  unfold words_of. rewrite map_map. intros Hin.
  apply in_map_iff in Hin as [[w n] [<- Hin]]. cbn. auto.
Qed.

Lemma words_of_words (e : env) (id : Z) (wc : Counter.t) :
  map wv_word (words_of e id wc)
  = Counter.keys (Counter.most_common 50 wc).
Proof.
  unfold Counter.keys. rewrite <- (words_of_items e id wc), map_map.
  reflexivity.
Qed.

(** X5.  The word-count rows of a successful run hold pairwise distinct
    words; each word is alphabetic, longer than 2 characters and not a
    stopword, its count is at least 1, and the row carries the
    identifier of the run's snapshot and the time of the store's clock. *)
Theorem written_rows_well_formed (tokenize : string -> list string)
    (e : env) (db db' : database) (id code : Z) (top : list (string * Z)) :
  collect tokenize e db
  = (Ok {| body := Success id top; status_code := code |}, db') ->
  exists wrows,
    word_velocity (visible db') = (word_velocity (visible db) ++ wrows)%list
    /\ NoDup (map wv_word wrows)
    /\ forall r, In r wrows ->
         PyStr.isalpha (wv_word r) = true
         /\ 2 < PyStr.len (wv_word r)
         /\ ~ In (wv_word r) STOPWORDS
         /\ 1 <= wv_count r
         /\ wv_snapshot_id r = id
         /\ wv_observed_at r = clock e.
Proof.
  intros Hc.
  destruct (collect_run tokenize e db) as (resp & db1 & Hrun & Hcases).
  rewrite Hrun in Hc. injection Hc as -> ->.
  destruct Hcases as [(x & _ & Hresp & _)|(hits & raw & wc & _ & Hwr & Hresp)];
    [discriminate Hresp|].
  injection Hresp as Hid _ _. subst id.
  destruct Hwr as (Hex & _ & _ & _ & _ & Hwv).
  destruct (extract_words_counts _ _ _ _ Hex) as [titles ->].
  exists (words_of e (id_seq db) (Counter.of_list (filtered_words tokenize titles))).
  split; [assumption|]. split.
  - rewrite words_of_words. apply most_common_NoDup, of_list_NoDup.
  - intros r Hr. apply words_of_In in Hr as (Hin & Hsid & Hat).
    apply most_common_In, of_list_item in Hin as (Hw & _ & Hpos).
    unfold filtered_words in Hw. apply filter_In in Hw as [_ Hkeep].
    apply keep_true in Hkeep as (Ha & Hl & Hs).
    repeat split; assumption.
Qed.

Lemma written_rows_well_formed_witness :
  exists db' wrows,
    collect split_spaces env_ok empty_db
    = (Ok {| body := Success 1 [("rust", 2); ("database", 1); ("engine", 1);
                                ("hard", 1)];
             status_code := 200 |}, db')
    /\ word_velocity (visible db')
       = (word_velocity (visible empty_db) ++ wrows)%list
    /\ NoDup (map wv_word wrows)
    /\ forall r, In r wrows ->
         PyStr.isalpha (wv_word r) = true
         /\ 2 < PyStr.len (wv_word r)
         /\ ~ In (wv_word r) STOPWORDS
         /\ 1 <= wv_count r
         /\ wv_snapshot_id r = 1
         /\ wv_observed_at r = clock env_ok.
Proof.
  exists (snd (collect split_spaces env_ok empty_db)).
  assert (Hrun : collect split_spaces env_ok empty_db
                 = (Ok {| body := Success 1 [("rust", 2); ("database", 1);
                                             ("engine", 1); ("hard", 1)];
                          status_code := 200 |},
                    snd (collect split_spaces env_ok empty_db)))
    by (vm_compute; reflexivity).
  destruct (written_rows_well_formed split_spaces env_ok empty_db _ _ _ _ Hrun)
    as (wrows & H1 & H2 & H3).
  exists wrows. auto.
Defined.

(** ** Malformed front pages (lines 35-38) *)

Lemma titles_of_In (items : list json) (hit v : json) :
  In hit items ->
  Py.get hit "title" (JStr EmptyString) = Ok v ->
  (exists x, Py.titles_of items = Raise x)
  \/ (exists vs, Py.titles_of items = Ok vs /\ In v vs).
Proof.
  intros Hin Hget.
  induction items as [|h items IH]; [contradiction|].
  cbn [Py.titles_of].
  destruct (Py.get h "title" (JStr EmptyString)) as [t|x] eqn:Hh;
    [|left; now exists x].
  destruct Hin as [->|Hin].
  - rewrite Hget in Hh. injection Hh as <-.
    destruct (Py.titles_of items) as [ts|x]; [|left; now exists x].
    right. exists (v :: ts). split; [reflexivity | now left].
  - destruct (IH Hin) as [[x ->]|(vs & -> & Hv)]; [left; now exists x|].
    right. exists (t :: vs). split; [reflexivity | now right].
Qed.

Lemma all_str_not_str (vs : list json) (v : json) :
  In v vs -> is_str v = false -> exists x, Py.all_str vs = Raise x.
Proof.
  intros Hin Hv.
  induction vs as [|u vs IH]; [contradiction|].
  destruct Hin as [->|Hin].
  - destruct v; try discriminate Hv; cbn; eexists; reflexivity.
  - destruct (IH Hin) as [x Hx].
    destruct u; cbn; try (eexists; reflexivity).
    rewrite Hx. now exists x.
Qed.

(** X6.  When a post of the fetched list has a title that is not a
    string (such as [null]), joining the titles raises: [collect]
    answers with the error response and the store is left untouched,
    with no connection opened. *)
Theorem collect_title_not_string (tokenize : string -> list string)
    (e : env) (db : database) (status : Z) (data hit v : json)
    (items : list json) :
  fetch e = Response status (Some data) ->
  Py.get data "hits" (JArr []) = Ok (JArr items) ->
  In hit items ->
  Py.get hit "title" (JStr EmptyString) = Ok v ->
  is_str v = false ->
  exists message,
    collect tokenize e db
    = (Ok {| body := Error message; status_code := 500 |}, db).
Proof.
  intros Hf Hhits Hin Hget Hv.
  assert (Hx : exists x, extract_words tokenize e = Raise x).
  { unfold extract_words, fetch_json. rewrite Hf, Hhits. cbn [Py.iter].
    destruct (titles_of_In items hit v Hin Hget) as [[x ->]|(vs & -> & Hvs)].
    - now exists x.
    - destruct (all_str_not_str vs v Hvs Hv) as [x ->]. now exists x. }
  destruct Hx as [x Hx]. exists (str x).
  unfold collect, try_except, collect_try, bind, lift. now rewrite Hx.
Qed.

Lemma collect_title_not_string_witness :
  exists message,
    collect split_spaces env_null_title empty_db
    = (Ok {| body := Error message; status_code := 500 |}, empty_db).
Proof.
  apply (collect_title_not_string split_spaces env_null_title empty_db 200
           front_page_null_title
           (JObj [("title", JNull); ("points", JNum 7)]) JNull
           [hit_titled "Show HN: new database engine";
            JObj [("title", JNull); ("points", JNum 7)]]).
  - reflexivity.
  - reflexivity.
  - right. left. reflexivity.
  - reflexivity.
  - reflexivity.
Defined.

(** X7.  A body without the key [hits] is handled as a front page
    without posts: the run is the same as with an empty list of hits. *)
Theorem collect_missing_hits (tokenize : string -> list string)
    (status : Z) (fields : list (string * json))
    (faults : db_op -> option string) (now : Z) (rank : string -> Z)
    (db : database) :
  Py.lookup "hits" fields = None ->
  collect tokenize
    {| fetch := Response status (Some (JObj fields));
       db_fault := faults; clock := now; tie_rank := rank |} db
  = collect tokenize
      {| fetch := Response status (Some front_page_empty);
         db_fault := faults; clock := now; tie_rank := rank |} db.
Proof.
  intros Hl.
  unfold collect, try_except, collect_try, bind, lift.
  assert (Hex : extract_words tokenize
                  {| fetch := Response status (Some (JObj fields));
                     db_fault := faults; clock := now; tie_rank := rank |}
                = extract_words tokenize
                    {| fetch := Response status (Some front_page_empty);
                       db_fault := faults; clock := now; tie_rank := rank |}).
  { unfold extract_words, fetch_json, Py.get. cbn [fetch]. rewrite Hl.
    reflexivity. }
  rewrite Hex. reflexivity.
Qed.

Lemma collect_missing_hits_witness :
  collect split_spaces
    {| fetch := Response 200 (Some (JObj [("message", JStr "no results")]));
       db_fault := no_fault; clock := 7; tie_rank := fun _ => 0 |} empty_db
  = collect split_spaces
      {| fetch := Response 200 (Some front_page_empty);
         db_fault := no_fault; clock := 7; tie_rank := fun _ => 0 |} empty_db.
Proof.
  apply (collect_missing_hits split_spaces 200
           [("message", JStr "no results")] no_fault 7 (fun _ => 0)
           empty_db).
  reflexivity.
Defined.

(** ** [dashboard] (lines 75-98) *)

(** X8.  [dashboard] only reads: whatever the store does, the visible
    tables and the identifier sequence are the same after it. *)
Theorem dashboard_read_only (e : env) (db : database) :
  visible (snd (dashboard e db)) = visible db
  /\ id_seq (snd (dashboard e db)) = id_seq db.
Proof.
  unfold dashboard, get_db_connection, select_trends, close, guarded,
    bind, ret, raise, visible.
  destruct (db_fault e OpConnect); cbn; [split; reflexivity|].
  destruct (db_fault e OpSelect); cbn; [split; reflexivity|].
  destruct (db_fault e OpClose); cbn; split; reflexivity.
Qed.

(** X9.  [dashboard] has no handler: it returns normally exactly when
    the store fails none of its three calls, and otherwise raises the
    store's error with its message. *)
Theorem dashboard_failure_propagates (e : env) (db : database) :
  ((exists r, fst (dashboard e db) = Ok r)
   <-> db_fault e OpConnect = None
       /\ db_fault e OpSelect = None
       /\ db_fault e OpClose = None)
  /\ (forall x, fst (dashboard e db) = Raise x ->
                exists op m,
                  db_fault e op = Some m /\ x = OperationalError m).
Proof.
  unfold dashboard, get_db_connection, select_trends, close, guarded,
    bind, ret, raise.
  destruct (db_fault e OpConnect) as [m|] eqn:Hc; cbn.
  { split.
    - split; [intros [r Hr]; discriminate Hr | intros (H & _); discriminate H].
    - intros x Hx. injection Hx as <-. now exists OpConnect, m. }
  destruct (db_fault e OpSelect) as [m|] eqn:Hs; cbn.
  { split.
    - split; [intros [r Hr]; discriminate Hr
             | intros (_ & H & _); discriminate H].
    - intros x Hx. injection Hx as <-. now exists OpSelect, m. }
  destruct (db_fault e OpClose) as [m|] eqn:Hcl; cbn.
  { split.
    - split; [intros [r Hr]; discriminate Hr
             | intros (_ & _ & H); discriminate H].
    - intros x Hx. injection Hx as <-. now exists OpClose, m. }
  split.
  - split; [auto | intros _; eexists; reflexivity].
  - intros x Hx. discriminate Hx.
Qed.

(** ** A run followed by a read (lines 46-69 and 83-98) *)

Lemma add_fresh (w : string) (n : Z) (c : Counter.t) :
  ~ In w (Counter.keys c) -> Counter.add w n c = (c ++ [(w, n)])%list.
Proof.
  induction c as [|[k m] c IH]; intros Hnew; [reflexivity|].
  cbn [Counter.add]. cbn in Hnew.
  destruct (String.eqb_spec k w) as [->|Hne].
  - elim Hnew. now left.
  - rewrite IH by tauto. reflexivity.
Qed.

Lemma group_sum_distinct_aux (rows : list word_row) (c : Counter.t) :
  NoDup (Counter.keys c ++ map wv_word rows) ->
  Counter.loop wv_word wv_count rows c = (c ++ map item_of rows)%list.
Proof.
  unfold Counter.loop. revert c.
  induction rows as [|r rows IH]; intros c Hnd; cbn [fold_left map].
  - now rewrite app_nil_r.
  - assert (Hnew : ~ In (wv_word r) (Counter.keys c)).
    { intros Hin. apply NoDup_remove_2 in Hnd. apply Hnd.
      apply in_or_app. now left. }
    rewrite (add_fresh _ _ _ Hnew), IH.
    + rewrite <- app_assoc. reflexivity.
    + unfold Counter.keys in *. rewrite map_app. cbn [map fst].
      rewrite <- app_assoc. cbn [app].
      apply NoDup_Add with (a := wv_word r)
                           (l := (map fst c ++ map wv_word rows)%list).
      * apply Add_app.
      * split; [now apply NoDup_remove_1 in Hnd
               | now apply NoDup_remove_2 in Hnd].
Qed.

Lemma group_sum_distinct (rows : list word_row) :
  NoDup (map wv_word rows) -> group_sum rows = map item_of rows.
Proof.
  intros Hnd. rewrite group_sum_loop.
  now rewrite (group_sum_distinct_aux rows []).
Qed.

Lemma filter_all {A : Type} (f : A -> bool) (l : list A) :
  (forall x, In x l -> f x = true) -> filter f l = l.
Proof.
  induction l as [|x l IH]; intros Hall; [reflexivity|].
  cbn [filter]. rewrite (Hall x) by now left.
  rewrite IH; [reflexivity|]. intros y Hy. apply Hall. now right.
Qed.

Lemma combine_fst_snd {A B : Type} (l : list (A * B)) :
  combine (map fst l) (map snd l) = l.
Proof.
  induction l as [|[a b] l IH]; [reflexivity|]. cbn. now rewrite IH.
Qed.

Lemma sorted_desc_counts (l : Counter.t) :
  Counter.sorted_desc l -> StronglySorted Z.ge (map snd l).
Proof.
  unfold Counter.sorted_desc.
  induction l as [|x l IH]; intros Hs; [constructor|].
  inversion Hs as [|? ? Hl Hx]; subst. cbn [map].
  constructor; [now apply IH|].
  apply Forall_map. eapply Forall_impl; [|exact Hx].
  unfold Counter.ge_count. intros; lia.
Qed.

(** A list of numbers has one decreasing arrangement. *)
Lemma sorted_counts_unique (m1 m2 : list Z) :
  StronglySorted Z.ge m1 -> StronglySorted Z.ge m2 ->
  Permutation m1 m2 -> m1 = m2.
Proof.
  revert m2. induction m1 as [|a m1 IH]; intros m2 H1 H2 Hp.
  - apply Permutation_nil in Hp. now subst.
  - destruct m2 as [|b m2];
      [apply Permutation_sym, Permutation_nil in Hp; discriminate Hp|].
    inversion H1 as [|? ? H1' Ha]; subst.
    inversion H2 as [|? ? H2' Hb]; subst.
    rewrite Forall_forall in Ha, Hb.
    assert (Hab : a = b).
    { assert (Hina : In a (b :: m2))
        by (apply (Permutation_in _ Hp); now left).
      assert (Hinb : In b (a :: m1))
        by (apply (Permutation_in _ (Permutation_sym Hp)); now left).
      destruct Hina as [->|Hina]; [reflexivity|].
      destruct Hinb as [->|Hinb]; [reflexivity|].
      specialize (Ha b Hinb). specialize (Hb a Hina). lia. }
    subst b. f_equal. apply IH; try assumption.
    now apply Permutation_cons_inv in Hp.
Qed.

(** X10.  On a store without word-count rows, a successful run followed
    within 24 hours by [dashboard] (the store failing none of its calls)
    shows the run's counts: the values are the counts of
    [most_common(10)], so the first 5 of them are the counts of the
    summary in the run's response, and every label is a word the run has
    written, shown once and next to its count.  Which of the words with
    equal counts are shown, and in which order, is the store's choice. *)
Theorem collect_then_dashboard (tokenize : string -> list string)
    (e e2 : env) (db db' : database) (id code : Z)
    (top : list (string * Z)) :
  word_velocity (visible db) = [] ->
  collect tokenize e db
  = (Ok {| body := Success id top; status_code := code |}, db') ->
  clock e2 - hours24 < clock e ->
  db_fault e2 OpConnect = None ->
  db_fault e2 OpSelect = None ->
  db_fault e2 OpClose = None ->
  exists labels data hits wc,
    fst (dashboard e2 db') = Ok (labels, data)
    /\ extract_words tokenize e = Ok (hits, wc)
    /\ data = map snd (Counter.most_common 10 wc)
    /\ firstn 5 data = map snd top
    /\ NoDup labels
    /\ List.length labels = List.length data
    /\ (forall w n, In (w, n) (combine labels data) ->
                    In (w, n) (Counter.most_common 50 wc)).
Proof.
  intros Hempty Hc Hclock Hconn Hsel Hclose.
  destruct (collect_run tokenize e db) as (resp & db1 & Hrun & Hcases).
  rewrite Hrun in Hc. injection Hc as -> ->.
  destruct Hcases as [(x & _ & Hresp & _)|(hits & raw & wc & _ & Hwr & Hresp)];
    [discriminate Hresp|].
  injection Hresp as _ Htop _.
  destruct Hwr as (Hex & _ & _ & _ & _ & Hwv).
  rewrite Hempty in Hwv. cbn [app] in Hwv.
  destruct (extract_words_counts _ _ _ _ Hex) as [titles Hwc].
  set (L := Counter.most_common 50 wc).
  set (G := Counter.sort_desc (store_order e2 L)).
  assert (Hq : trend_query e2 (word_velocity (visible db')) = firstn 10 G).
  { unfold trend_query. rewrite Hwv.
    rewrite filter_all.
    - rewrite group_sum_distinct.
      + now rewrite words_of_items.
      + rewrite words_of_words, Hwc.
        apply most_common_NoDup, of_list_NoDup.
    - intros r Hr. apply words_of_In in Hr as (_ & _ & Hat).
      unfold in_window. rewrite Hat. apply Z.ltb_lt. assumption. }
  assert (Hperm : Permutation G L)
    by (eapply perm_trans; [apply sort_desc_perm | apply store_order_perm]).
  assert (Hcounts : map snd G = map snd L).
  { apply sorted_counts_unique.
    - apply sorted_desc_counts, sort_desc_sorted.
    - apply sorted_desc_counts, most_common_sorted.
    - now apply Permutation_map. }
  assert (Hdata : map snd (firstn 10 G) = map snd (Counter.most_common 10 wc)).
  { rewrite <- firstn_map, Hcounts, firstn_map. f_equal.
    symmetry. apply most_common_prefix. lia. }
  exists (map fst (firstn 10 G)), (map snd (firstn 10 G)), hits, wc.
  rewrite combine_fst_snd.
  repeat split.
  - rewrite (dashboard_run e2 db' Hconn Hsel Hclose), Hq. reflexivity.
  - assumption.
  - assumption.
  - rewrite Hdata, Htop, firstn_map. f_equal.
    symmetry. apply most_common_prefix. lia.
  - rewrite <- firstn_map. apply NoDup_firstn.
    eapply Permutation_NoDup.
    + apply Permutation_sym, Permutation_map, Hperm.
    + unfold L. rewrite Hwc.
      apply (most_common_NoDup 50), of_list_NoDup.
  - now rewrite !length_map.
  - intros w n Hin. apply In_firstn in Hin.
    now apply (Permutation_in _ Hperm).
Qed.

Lemma collect_then_dashboard_witness :
  exists labels data,
    fst (dashboard env_later (snd (collect split_spaces env_ok empty_db)))
    = Ok (labels, data)
    /\ firstn 5 data = [2; 1; 1; 1]
    /\ NoDup labels.
Proof.
  assert (Hrun : collect split_spaces env_ok empty_db
                 = (Ok {| body := Success 1 [("rust", 2); ("database", 1);
                                             ("engine", 1); ("hard", 1)];
                          status_code := 200 |},
                    snd (collect split_spaces env_ok empty_db)))
    by (vm_compute; reflexivity).
  assert (Hclock : clock env_later - hours24 < clock env_ok)
    by (vm_compute; reflexivity).
  destruct (collect_then_dashboard split_spaces env_ok env_later empty_db
              _ _ _ _ eq_refl Hrun Hclock eq_refl eq_refl eq_refl)
    as (labels & data & hits & wc & Hd & _ & _ & Htop & Hnd & _).
  exists labels, data. repeat split; assumption.
Defined.

(** ** The invariant of the store (lines 50-65) *)

(** The identifier sequence along a run: it never goes back, and a run
    that commits has taken exactly one identifier. *)
Lemma collect_id_seq (tokenize : string -> list string) (e : env)
    (db : database) :
  let db' := snd (collect tokenize e db) in
  (visible db' = visible db /\ id_seq db <= id_seq db')
  \/ (id_seq db' = id_seq db + 1
      /\ exists hits raw wc, written tokenize e db db' hits raw wc).
Proof.
  unfold collect, try_except, collect_try, bind, lift.
  destruct (extract_words tokenize e) as [[hits wc]|x] eqn:Hex.
  2:{ cbn. left. split; [reflexivity | lia]. }
  run_step.
  destruct (db_fault e OpConnect) as [m|] eqn:Hconn; cbn.
  { left. split; [reflexivity | lia]. }
  destruct (Py.slice5 hits) as [raw|x] eqn:Hraw; cbn.
  2:{ left. split; [reflexivity | lia]. }
  destruct (db_fault e OpInsertSnapshot) as [m|] eqn:Hsnap; cbn.
  { left. split; [reflexivity | lia]. }
  destruct (db_fault e OpInsertWords) as [m|] eqn:Hwords; cbn.
  { left. split; [reflexivity | lia]. }
  destruct (Counter.most_common 50 wc) as [|it its] eqn:Htop; cbn.
  { left. split; [reflexivity | lia]. }
  destruct (db_fault e OpCommit) as [m|] eqn:Hcommit; cbn.
  { left. split; [reflexivity | lia]. }
  assert (Hw : forall db',
             committed db'
             = {| snapshots := (snapshots (committed db)
                                ++ [snapshot_of e (id_seq db) raw])%list;
                  word_velocity := (word_velocity (committed db)
                                    ++ words_of e (id_seq db) wc)%list |} ->
             written tokenize e db db' hits raw wc).
  { intros db' Hc. unfold written, store_accepts, visible.
    rewrite Hc, Htop. cbn.
    repeat split; try assumption. discriminate. }
  destruct (db_fault e OpClose) as [m|] eqn:Hclose; cbn;
    (right; split; [reflexivity|]; exists hits, raw, wc; apply Hw; cbn;
     unfold words_of; rewrite Htop; reflexivity).
Qed.

Lemma filter_none {A : Type} (f : A -> bool) (l : list A) :
  (forall x, In x l -> f x = false) -> filter f l = [].
Proof.
  induction l as [|x l IH]; intros Hnone; [reflexivity|].
  cbn [filter]. rewrite (Hnone x) by now left.
  apply IH. intros y Hy. apply Hnone. now right.
Qed.

(** X11.  A run of [collect] keeps the visible tables consistent:
    snapshot identifiers stay distinct and below the sequence, every
    word-count row refers to a snapshot row, and no snapshot has more
    than 50 word-count rows. *)
Theorem collect_keeps_store_wf (tokenize : string -> list string)
    (e : env) (db : database) :
  store_wf db -> store_wf (snd (collect tokenize e db)).
Proof.
  intros (Hnd & Hlt & Href & Hcap).
  destruct (collect_id_seq tokenize e db)
    as [[Hsame Hle]|(Hseq & hits & raw & wc & Hwr)].
  - unfold store_wf. rewrite Hsame. repeat split; try assumption.
    intros s Hs. specialize (Hlt s Hs). lia.
  - destruct (written_rows _ _ _ _ _ _ _ Hwr)
      as (srow & wrows & Hs & Hwv & Hid & _ & Hrows).
    assert (Hnew : forall r, In r wrows -> wv_snapshot_id r = id_seq db).
    { intros r Hr. rewrite Hrows in Hr. now apply words_of_In in Hr. }
    assert (Hold : forall r, In r (word_velocity (visible db)) ->
                             wv_snapshot_id r < id_seq db).
    { intros r Hr. apply Href in Hr.
      apply in_map_iff in Hr as (s & <- & Hin). now apply Hlt. }
    unfold store_wf. rewrite Hs, Hwv, Hseq. repeat split.
    + rewrite map_app. cbn [map].
      apply (Permutation_NoDup (Permutation_cons_append _ _)).
      constructor; [|assumption].
      intros Hin. apply in_map_iff in Hin as (s & Heq & Hin).
      specialize (Hlt s Hin). lia.
    + intros s Hin. apply in_app_or in Hin as [Hin|[<-|[]]].
      * specialize (Hlt s Hin). lia.
      * lia.
    + intros r Hin. rewrite map_app. apply in_or_app.
      apply in_app_or in Hin as [Hin|Hin].
      * left. now apply Href.
      * right. cbn. left. rewrite Hid. symmetry. now apply Hnew.
    + intros id. unfold rows_of. rewrite filter_app, length_app.
      destruct (Z.eq_dec id (id_seq db)) as [->|Hne].
      * rewrite (filter_none _ (word_velocity (visible db))).
        -- cbn [List.length Nat.add].
           eapply Nat.le_trans; [apply filter_length_le|].
           rewrite Hrows. apply words_of_length.
        -- intros r Hr. specialize (Hold r Hr). apply Z.eqb_neq. lia.
      * rewrite (filter_none _ wrows).
        -- cbn [List.length]. rewrite Nat.add_0_r. apply Hcap.
        -- intros r Hr. rewrite (Hnew r Hr). apply Z.eqb_neq. lia.
Qed.

Lemma collect_keeps_store_wf_witness :
  store_wf empty_db
  /\ store_wf (snd (collect split_spaces env_ok empty_db)).
Proof.
  assert (Hwf : store_wf empty_db).
  { unfold store_wf. cbn. repeat split.
    - constructor.
    - intros s [].
    - intros r [].
    - intros _. apply Nat.le_0_l. }
  split; [exact Hwf|].
  apply (collect_keeps_store_wf split_spaces env_ok empty_db Hwf).
Defined.

Lemma total_of_app (w : string) (rows1 rows2 : list word_row) :
  total_of w (rows1 ++ rows2) = total_of w rows1 + total_of w rows2.
Proof.
  unfold total_of. rewrite filter_app, map_app.
  induction (map wv_count (filter (fun r => String.eqb (wv_word r) w) rows1))
    as [|n ns IH]; cbn; lia.
Qed.

(** X12.  After a successful run, a query made within 24 hours sees the
    total of every word the run has written grown by exactly the count
    of its new row, whatever rows the store held before. *)
Theorem collect_adds_to_totals (tokenize : string -> list string)
    (e e2 : env) (db db' : database) (id code : Z)
    (top : list (string * Z)) :
  collect tokenize e db
  = (Ok {| body := Success id top; status_code := code |}, db') ->
  clock e2 - hours24 < clock e ->
  exists wrows,
    word_velocity (visible db') = (word_velocity (visible db) ++ wrows)%list
    /\ forall r, In r wrows ->
         total_of (wv_word r)
           (filter (in_window e2) (word_velocity (visible db')))
         = total_of (wv_word r)
             (filter (in_window e2) (word_velocity (visible db)))
           + wv_count r.
Proof.
  intros Hc Hclock.
  destruct (collect_run tokenize e db) as (resp & db1 & Hrun & Hcases).
  rewrite Hrun in Hc. injection Hc as -> ->.
  destruct Hcases as [(x & _ & Hresp & _)|(hits & raw & wc & _ & Hwr & Hresp)];
    [discriminate Hresp|].
  destruct Hwr as (Hex & _ & _ & _ & _ & Hwv).
  destruct (extract_words_counts _ _ _ _ Hex) as [titles Hwc].
  exists (words_of e (id_seq db) wc). split; [assumption|].
  intros r Hr. rewrite Hwv, filter_app, total_of_app. f_equal.
  rewrite filter_all.
  - assert (Hnd : NoDup (map wv_word (words_of e (id_seq db) wc))).
    { rewrite words_of_words, Hwc. apply most_common_NoDup, of_list_NoDup. }
    assert (Hin : In (wv_word r, wv_count r)
                     (group_sum (words_of e (id_seq db) wc))).
    { rewrite (group_sum_distinct _ Hnd).
      change (wv_word r, wv_count r) with (item_of r). now apply in_map. }
    apply group_sum_total in Hin as [_ Heq]. now symmetry.
  - intros r' Hr'. apply words_of_In in Hr' as (_ & _ & Hat).
    unfold in_window. rewrite Hat. now apply Z.ltb_lt.
Qed.

Lemma collect_adds_to_totals_witness :
  exists wrows,
    word_velocity (visible (snd (collect split_spaces env_ok db_old)))
    = (word_velocity (visible db_old) ++ wrows)%list
    /\ forall r, In r wrows ->
         total_of (wv_word r)
           (filter (in_window env_later)
              (word_velocity (visible (snd (collect split_spaces env_ok db_old)))))
         = total_of (wv_word r)
             (filter (in_window env_later) (word_velocity (visible db_old)))
           + wv_count r.
Proof.
  assert (Hrun : collect split_spaces env_ok db_old
                 = (Ok {| body := Success 2 [("rust", 2); ("database", 1);
                                             ("engine", 1); ("hard", 1)];
                          status_code := 200 |},
                    snd (collect split_spaces env_ok db_old)))
    by (vm_compute; reflexivity).
  assert (Hclock : clock env_later - hours24 < clock env_ok)
    by (vm_compute; reflexivity).
  exact (collect_adds_to_totals split_spaces env_ok env_later db_old
           _ _ _ _ Hrun Hclock).
Defined.
